(** * react-native-webview: shared event logic, origin whitelist and version gate

    A shallow embedding of [src/WebViewShared.tsx] (both revisions found in
    the file) and of the parts of [WebView.ios.tsx] that drive it.

    Conventions of the model:
    - a JavaScript string is a [string]: a sequence of code units below 256;
    - [null] results are [None], exceptions are the [Throw] completion;
    - host callbacks, [URL], [JSON] and [Platform.OS] are parameters of the
      component, collected in the records [Props] and [Platform];
    - a handler is a function from the hook state to a [run]: completion,
      final state and the trace of observable calls it made. *)

From Stdlib Require Import Bool Arith List Ascii String ZArith NArith QArith Lia.
Import ListNotations.

Local Close Scope Q_scope.
Local Open Scope string_scope.
Local Open Scope bool_scope.
Local Open Scope list_scope.

Set Implicit Arguments.

(* ------------------------------------------------------------------ *)
(** ** Completions: a value or a raised exception *)

Inductive exn : Type :=
| TypeError (msg : string)
| SyntaxError (msg : string)
| InvariantViolation (msg : string)
| HostError (msg : string).       (* raised by a callback of the host *)

Inductive completion (A : Type) : Type :=
| Normal (a : A)
| Throw (e : exn).

Arguments Normal {A} a.
Arguments Throw {A} e.

Definition cbind {A B : Type} (c : completion A) (k : A -> completion B)
  : completion B :=
  match c with
  | Normal a => k a
  | Throw e => Throw e
  end.

(* ------------------------------------------------------------------ *)
(** ** JavaScript string primitives used by the code *)

Module JsString.

(** The backslash character. *)
Definition backslash : ascii := "092"%char.

Definition isEmpty (s : string) : bool :=
  match s with EmptyString => true | String _ _ => false end.

Definition isUpper (c : ascii) : bool :=
  (65 <=? nat_of_ascii c)%nat && (nat_of_ascii c <=? 90)%nat.
Definition isLower (c : ascii) : bool :=
  (97 <=? nat_of_ascii c)%nat && (nat_of_ascii c <=? 122)%nat.
Definition isDigit (c : ascii) : bool :=
  (48 <=? nat_of_ascii c)%nat && (nat_of_ascii c <=? 57)%nat.
Definition isAlpha (c : ascii) : bool := isUpper c || isLower c.

(** [takeWhile p s] and [dropWhile p s]: the longest prefix of [s] whose
    characters satisfy [p], and what follows it. *)
Fixpoint takeWhile (p : ascii -> bool) (s : string) : string :=
  match s with
  | EmptyString => EmptyString
  | String c rest => if p c then String c (takeWhile p rest) else EmptyString
  end.

Fixpoint dropWhile (p : ascii -> bool) (s : string) : string :=
  match s with
  | EmptyString => EmptyString
  | String c rest => if p c then dropWhile p rest else s
  end.

(** [String.prototype.includes]. *)
Fixpoint includes (needle s : string) : bool :=
  prefix needle s ||
  match s with
  | EmptyString => false
  | String _ rest => includes needle rest
  end.

(** [String.prototype.split] with a non-empty separator: the pieces between
    successive non-overlapping occurrences of [sep], scanning left to right.
    [skip] counts the characters of the current occurrence still to drop. *)
Fixpoint splitFrom (sep : string) (skip : nat) (s : string) : list string :=
  match s with
  | EmptyString => [EmptyString]
  | String c rest =>
      match skip with
      | S k => splitFrom sep k rest
      | O =>
          if prefix sep s
          then EmptyString :: splitFrom sep (String.length sep - 1) rest
          else match splitFrom sep 0 rest with
               | p :: ps => String c p :: ps
               | [] => [String c EmptyString]
               end
      end
  end.

Definition split (sep s : string) : list string := splitFrom sep 0 s.

(** [Array.prototype.slice(0, -1)]: every element but the last. *)
Definition sliceInit {A : Type} (l : list A) : list A := removelast l.

End JsString.
Import JsString.

(* ------------------------------------------------------------------ *)
(** ** The fragment of JavaScript regular expressions the whitelist uses

    [new RegExp(x).test(s)] for sources [x] built from literal characters,
    identity escapes, [.], a [*] quantifier on a character atom, and the
    [^] / [$] assertions (no flags).  Any other syntax is outside the
    fragment and [parse] answers [None]; [compileWhitelist] never produces
    such a source ([parse_originWhitelistToRegex] below). *)

Module Regex.

Inductive atom : Type :=
| AChar (c : ascii)      (* a literal character, escaped or not *)
| ADot                   (* [.]: any character but a line terminator *)
| AStart                 (* [^] *)
| AEnd.                  (* [$] *)

Inductive term : Type :=
| TAtom (a : atom)
| TStar (a : atom).      (* greedy [a*] *)

Definition isLineTerminator (c : ascii) : bool :=
  Ascii.eqb c "010" || Ascii.eqb c "013".

(** The syntax characters an identity escape may protect, together with
    [-] and [/]. *)
Definition isSyntaxChar (c : ascii) : bool :=
  existsb (Ascii.eqb c)
    ["^"; "$"; backslash; "."; "*"; "+"; "?"; "("; ")"; "["; "]"; "{"; "}"; "|"]%char.

Definition isIdentityEscape (c : ascii) : bool :=
  isSyntaxChar c || Ascii.eqb c "-" || Ascii.eqb c "/".

Definition isAssertion (a : atom) : bool :=
  match a with AStart | AEnd => true | _ => false end.

Definition flush (prev : option atom) : list term :=
  match prev with Some a => [TAtom a] | None => [] end.

(** [parseFrom prev s]: the terms of [s], where [prev] is the atom read
    last, which a following [*] would quantify. *)
Fixpoint parseFrom (prev : option atom) (s : string) : option (list term) :=
  match s with
  | EmptyString => Some (flush prev)
  | String c rest =>
      if Ascii.eqb c "*" then
        match prev with
        | Some a =>
            if isAssertion a then None
            else option_map (cons (TStar a)) (parseFrom None rest)
        | None => None                      (* nothing to repeat *)
        end
      else if Ascii.eqb c backslash then
        match rest with
        | String d rest' =>
            if isIdentityEscape d
            then option_map (app (flush prev)) (parseFrom (Some (AChar d)) rest')
            else None                       (* class escapes, back references *)
        | EmptyString => None               (* \ at end of pattern *)
        end
      else if Ascii.eqb c "." then
        option_map (app (flush prev)) (parseFrom (Some ADot) rest)
      else if Ascii.eqb c "^" then
        option_map (app (flush prev)) (parseFrom (Some AStart) rest)
      else if Ascii.eqb c "$" then
        option_map (app (flush prev)) (parseFrom (Some AEnd) rest)
      else if isSyntaxChar c then None      (* groups, classes, other quantifiers *)
      else option_map (app (flush prev)) (parseFrom (Some (AChar c)) rest)
  end.

Definition parse (src : string) : option (list term) := parseFrom None src.

Definition atomAccepts (a : atom) (c : ascii) : bool :=
  match a with
  | AChar d => Ascii.eqb d c
  | ADot => negb (isLineTerminator c)
  | AStart | AEnd => false
  end.

(** Backtracking matcher: does [r] match a prefix of [s]?  [atStart] tells
    whether [s] begins at index 0 of the input. *)
Fixpoint matchHere (r : list term) : bool -> string -> bool :=
  match r with
  | [] => fun _ _ => true
  | TAtom AStart :: r' => fun atStart s => atStart && matchHere r' atStart s
  | TAtom AEnd :: r' => fun atStart s => isEmpty s && matchHere r' atStart s
  | TAtom a :: r' =>
      fun _ s =>
        match s with
        | EmptyString => false
        | String c s' => atomAccepts a c && matchHere r' false s'
        end
  | TStar a :: r' =>
      fix star (atStart : bool) (s : string) {struct s} : bool :=
        match s with
        | EmptyString => matchHere r' atStart s
        | String c s' =>
            (atomAccepts a c && star false s') || matchHere r' atStart s
        end
  end.

(** A match may start at any index of the input. *)
Fixpoint searchFrom (r : list term) (atStart : bool) (s : string) : bool :=
  matchHere r atStart s ||
  match s with
  | EmptyString => false
  | String _ s' => searchFrom r false s'
  end.

(** [new RegExp(src).test(s)]; [Throw] is the constructor's SyntaxError,
    and stands for every source outside the fragment. *)
Definition test (src s : string) : completion bool :=
  match parse src with
  | Some r => Normal (searchFrom r true s)
  | None => Throw (SyntaxError "Invalid regular expression")
  end.

End Regex.

(* ------------------------------------------------------------------ *)
(** ** Origin whitelist matcher *)

Definition defaultOriginWhitelist : list string := ["https://*"].

Definition isSchemeChar (c : ascii) : bool :=
  isAlpha c || isDigit c || Ascii.eqb c "+" || Ascii.eqb c "-" || Ascii.eqb c ".".

Definition notSlash (c : ascii) : bool := negb (Ascii.eqb c "/").

(** [/^[A-Za-z][A-Za-z0-9+\-.]+:(\/\/)?[^/]*/.exec(url)], then [result[0]] or
    [''].  The scheme class excludes [:], so only its longest run can be
    followed by the colon; the optional [//] and the final star are greedy
    and never need to give characters back. *)
Definition extractOrigin (url : string) : string :=
  match url with
  | EmptyString => EmptyString
  | String c rest =>
      if isAlpha c then
        let scheme := takeWhile isSchemeChar rest in
        if isEmpty scheme then EmptyString
        else
          match dropWhile isSchemeChar rest with
          | String ":" after =>
              match after with
              | String "/" (String "/" after') =>
                  String c (scheme ++ "://" ++ takeWhile notSlash after')
              | _ => String c (scheme ++ ":" ++ takeWhile notSlash after)
              end
          | _ => EmptyString
          end
      else EmptyString
  end.

(** [escapeStringRegexp] of the [escape-string-regexp] package (2.x):
    [string.replace(/[|\\{}()[\]^$+*?.-]/g, '\\$&')]. *)
Definition isRegexOperator (c : ascii) : bool :=
  existsb (Ascii.eqb c)
    ["|"; backslash; "{"; "}"; "("; ")"; "["; "]"; "^"; "$"; "+"; "*"; "?"; "."; "-"]%char.

Fixpoint escapeStringRegexp (s : string) : string :=
  match s with
  | EmptyString => EmptyString
  | String c rest =>
      if isRegexOperator c
      then String backslash (String c (escapeStringRegexp rest))
      else String c (escapeStringRegexp rest)
  end.

(** [.replace(/\\\*/g, '.*')]: every occurrence of backslash-star, scanning
    left to right, becomes dot-star. *)
Fixpoint replaceEscapedStar (s : string) : string :=
  match s with
  | EmptyString => EmptyString
  | String c rest =>
      match rest with
      | String d rest' =>
          if Ascii.eqb c backslash && Ascii.eqb d "*"
          then String "." (String "*" (replaceEscapedStar rest'))
          else String c (replaceEscapedStar rest)
      | EmptyString => String c EmptyString
      end
  end.

Definition originWhitelistToRegex (originWhitelist : string) : string :=
  "^" ++ replaceEscapedStar (escapeStringRegexp originWhitelist) ++ "$".

Definition compileWhitelist (originWhitelist : list string) : list string :=
  map originWhitelistToRegex ("about:blank" :: originWhitelist).

(** [Array.prototype.some] over a predicate that may raise: stops at the
    first element answering [true]. *)
Fixpoint some {A : Type} (f : A -> completion bool) (l : list A)
  : completion bool :=
  match l with
  | [] => Normal false
  | x :: rest =>
      cbind (f x) (fun b => if b then Normal true else some f rest)
  end.

(** JavaScript truthiness of the [false | null | boolean] result. *)
Definition truthy (r : option bool) : bool :=
  match r with Some true => true | _ => false end.

Section Whitelist.

(** [new URL(url).origin]: the platform's URL parser, which raises a
    TypeError on input it cannot parse. *)
Variable urlOrigin : string -> completion string.

Definition _passesWhitelist (compiledWhitelist : list string) (url : string)
  : completion (option bool) :=
  let origin := extractOrigin url in
  if isEmpty origin then Normal (Some false)
  else
    cbind (urlOrigin url) (fun parsed =>
      if negb (String.eqb origin parsed) then Normal None
      else
        cbind (some (fun x => Regex.test x origin) compiledWhitelist)
              (fun b => Normal (Some b))).

End Whitelist.

(* ------------------------------------------------------------------ *)
(** ** Glob patterns, as the specification words them

    [*] matches any character sequence; every other pattern character
    matches itself. *)

Inductive GlobMatches : string -> string -> Prop :=
| glob_end : GlobMatches EmptyString EmptyString
| glob_star (p t s : string) :
    GlobMatches p s -> GlobMatches (String "*" p) (t ++ s)
| glob_char (c : ascii) (p s : string) :
    c <> "*"%char -> GlobMatches p s -> GlobMatches (String c p) (String c s).

(** No character of [s] is a line terminator. *)
Fixpoint noLineTerminator (s : string) : bool :=
  match s with
  | EmptyString => true
  | String c rest => negb (Regex.isLineTerminator c) && noLineTerminator rest
  end.

(** The terms a glob pattern compiles to, between the two anchors. *)
Fixpoint globTerms (p : string) : list Regex.term :=
  match p with
  | EmptyString => []
  | String c rest =>
      (if Ascii.eqb c "*" then Regex.TStar Regex.ADot
       else Regex.TAtom (Regex.AChar c)) :: globTerms rest
  end.

(* ------------------------------------------------------------------ *)
(** ** Events, host configuration and the hook state *)

Inductive OS : Type := android | ios | macos | windows | web.

Definition isAndroid (os : OS) : bool :=
  match os with android => true | _ => false end.

Inductive ViewState : Type := IDLE | LOADING | ERROR.

Definition isLOADING (v : ViewState) : bool :=
  match v with LOADING => true | _ => false end.

(** Modelled from the spec: the declaration of [WebViewNativeEvent] in
    [WebViewTypes] is not among the sources; these are the metadata fields
    of the message envelope, which [extractMeta] reads one by one. *)
Record WebViewNativeEvent : Type := {
  ev_url : string;
  ev_loading : bool;
  ev_title : string;
  ev_canGoBack : bool;
  ev_canGoForward : bool;
  ev_lockIdentifier : Z
}.

(** Modelled from the spec: [WebViewError] of [WebViewTypes], a native event
    with the error record's optional domain, integer code and description. *)
Record WebViewError : Type := {
  err_event : WebViewNativeEvent;
  err_domain : option string;
  err_code : Z;
  err_description : string
}.

(** Modelled from the spec: [WebViewErrorEvent] of [WebViewTypes], the
    synthetic event around a [WebViewError], which carries the flag that
    [isDefaultPrevented()] reads (the error event "can suppress default"). *)
Record WebViewErrorEvent : Type := {
  errorNativeEvent : WebViewError;
  defaultPrevented : bool
}.

(** Modelled from the spec: the native event of a [WebViewProgressEvent],
    load-progress with its fraction; the handlers only compare [progress]
    with 1. *)
Record WebViewProgress : Type := {
  prog_event : WebViewNativeEvent;
  prog_progress : Q
}.

(** Modelled from the spec: the native event of a [WebViewMessageEvent],
    the metadata with the serialized [data] payload. *)
Record WebViewMessageNative : Type := {
  msg_event : WebViewNativeEvent;
  msg_data : string
}.

(** Modelled from the spec: [WebViewMessage] of [WebViewTypes], the envelope
    handed to the host, [{ ...meta, data }]. *)
Record WebViewMessage : Type := {
  message_meta : WebViewNativeEvent;
  message_data : string
}.

(** A host callback, if supplied.  Its result tells whether the host called
    [event.preventDefault()] on the event it was given. *)
Definition listener (E : Type) : Type := option (E -> bool).

(** The observable calls a handler makes, in order. *)
Inductive call : Type :=
| OnLoadStart (e : WebViewNativeEvent)
| OnLoad (e : WebViewNativeEvent)
| OnLoadEnd (e : WebViewNativeEvent + WebViewErrorEvent)
| OnError (e : WebViewErrorEvent)
| OnLoadProgress (e : WebViewProgress)
| OnNavigationStateChange (e : WebViewNativeEvent)
| OnHttpError (e : WebViewNativeEvent)
| OnRenderProcessGone (e : WebViewNativeEvent)
| OnContentProcessDidTerminate (e : WebViewNativeEvent)
| OnMessage (m : WebViewMessage)
| OnShouldStartLoadWithRequest (e : WebViewNativeEvent)
| LoadRequest (shouldStart : bool) (url : string) (lockIdentifier : Z)
| LinkingCanOpenURL (url : string)
| ConsoleWarn (msg : string)
| CommandReload.


Definition isOnMessage (c : call) : bool :=
  match c with OnMessage _ => true | _ => false end.

(** The platform services the code calls: [new URL(url).origin],
    [JSON.parse], [JSON.stringify] and [Platform.OS].  [jsobject] is the type
    of parsed JSON values. *)
Record Platform (jsobject : Type) : Type := {
  urlOrigin : string -> completion string;
  JSON_parse : string -> completion jsobject;
  JSON_stringify : jsobject -> completion string;
  Platform_OS : OS
}.

(** The arguments of [useWebWiewLogic]. *)
Record Props (jsobject : Type) : Type := {
  startInLoadingState : bool;
  onNavigationStateChange : listener WebViewNativeEvent;
  onLoadStart : listener WebViewNativeEvent;
  onLoad : listener WebViewNativeEvent;
  onLoadProgress : listener WebViewProgress;
  onLoadEnd : listener (WebViewNativeEvent + WebViewErrorEvent);
  onError : listener WebViewErrorEvent;
  onHttpErrorProp : listener WebViewNativeEvent;
  onMessageProp : listener WebViewMessage;
  onRenderProcessGoneProp : listener WebViewNativeEvent;
  onContentProcessDidTerminateProp : listener WebViewNativeEvent;
  originWhitelist : list string;
  onShouldStartLoadWithRequestProp : option (WebViewNativeEvent -> bool);
  validateMeta : WebViewNativeEvent -> completion WebViewNativeEvent;
  validateData : jsobject -> completion jsobject
}.

(** [viewState], [lastErrorEvent] and the [startUrl] reference cell. *)
Record HookState : Type := {
  viewState : ViewState;
  lastErrorEvent : option WebViewError;
  startUrl : option string
}.

(* ------------------------------------------------------------------ *)
(** ** Handlers: state, trace and completion *)

Record run (A : Type) : Type := {
  outcome : completion A;
  final : HookState;
  trace : list call
}.

Definition handler (A : Type) : Type := HookState -> run A.

Definition ret {A : Type} (a : A) : handler A :=
  fun s => {| outcome := Normal a; final := s; trace := [] |}.

Definition bind {A B : Type} (m : handler A) (k : A -> handler B) : handler B :=
  fun s =>
    let r := m s in
    match outcome r with
    | Normal a =>
        let r' := k a (final r) in
        {| outcome := outcome r'; final := final r'; trace := trace r ++ trace r' |}
    | Throw e => {| outcome := Throw e; final := final r; trace := trace r |}
    end.

Declare Scope handler_scope.
Delimit Scope handler_scope with handler.
Notation "x <- m ;; k" := (bind m (fun x => k))
  (at level 61, m at next level, right associativity) : handler_scope.
Notation "m ;; k" := (bind m (fun _ => k))
  (at level 61, right associativity) : handler_scope.
Local Open Scope handler_scope.

(** A computation of the platform or the host that may raise. *)
Definition lift {A : Type} (c : completion A) : handler A :=
  fun s => {| outcome := c; final := s; trace := [] |}.

Definition emit (c : call) : handler unit :=
  fun s => {| outcome := Normal tt; final := s; trace := [c] |}.

(** [cb?.(event)] *)
Definition invoke {E : Type} (cb : listener E) (c : E -> call) (e : E)
  : handler bool :=
  match cb with
  | Some f => emit (c e) ;; ret (f e)
  | None => ret false
  end.

(** [setViewState(prev => f(prev))]; a handler never reads the view state
    back after setting it, so the update is applied at once. *)
Definition updateViewState (f : ViewState -> ViewState) : handler unit :=
  fun s =>
    {| outcome := Normal tt;
       final := {| viewState := f (viewState s);
                   lastErrorEvent := lastErrorEvent s;
                   startUrl := startUrl s |};
       trace := [] |}.

Definition setViewState (v : ViewState) : handler unit :=
  updateViewState (fun _ => v).

Definition setLastErrorEvent (e : WebViewError) : handler unit :=
  fun s =>
    {| outcome := Normal tt;
       final := {| viewState := viewState s;
                   lastErrorEvent := Some e;
                   startUrl := startUrl s |};
       trace := [] |}.

(** [startUrl.current = url] *)
Definition setStartUrl (u : string) : handler unit :=
  fun s =>
    {| outcome := Normal tt;
       final := {| viewState := viewState s;
                   lastErrorEvent := lastErrorEvent s;
                   startUrl := Some u |};
       trace := [] |}.

Definition getStartUrl : handler (option string) :=
  fun s => {| outcome := Normal (startUrl s); final := s; trace := [] |}.

(** [url === startUrl.current] *)
Definition sameUrl (u : string) (current : option string) : bool :=
  match current with
  | Some v => String.eqb u v
  | None => false
  end.

(* ------------------------------------------------------------------ *)
(** ** Load-request interceptor (the same in both revisions) *)

Section Interceptor.

Variable jsobject : Type.
Variable platform : Platform jsobject.

(** The function [createOnShouldStartLoadWithRequest] returns.  The
    [loadRequest] argument is recorded as the [LoadRequest] call; the
    external opener is a promise the handler does not wait for, recorded
    as [LinkingCanOpenURL]. *)
Definition createOnShouldStartLoadWithRequest
    (originWhitelist : list string)
    (onShouldStartLoadWithRequest : option (WebViewNativeEvent -> bool))
    (nativeEvent : WebViewNativeEvent) : handler unit :=
  let url := ev_url nativeEvent in
  let lockIdentifier := ev_lockIdentifier nativeEvent in
  passes <- lift (_passesWhitelist (urlOrigin platform)
                    (compileWhitelist originWhitelist) url) ;;
  shouldStart <-
    (if negb (truthy passes) then
       emit (LinkingCanOpenURL url) ;; ret false
     else
       match onShouldStartLoadWithRequest with
       | Some f =>
           emit (OnShouldStartLoadWithRequest nativeEvent) ;;
           ret (f nativeEvent)
       | None => ret true
       end) ;;
  emit (LoadRequest shouldStart url lockIdentifier).

End Interceptor.

(* ------------------------------------------------------------------ *)
(** ** [useWebWiewLogic], first revision (lines 104-258) *)

Module Rev1.
Section Logic.

Variable jsobject : Type.
Variable platform : Platform jsobject.
Variable props : Props jsobject.

Definition initialState : HookState :=
  {| viewState := if startInLoadingState props then LOADING else IDLE;
     lastErrorEvent := None;
     startUrl := None |}.

Definition passesWhitelist (url : string) : completion (option bool) :=
  _passesWhitelist (urlOrigin platform)
    (compileWhitelist (originWhitelist props)) url.

Definition passesWhitelistUse := passesWhitelist.

Definition updateNavigationState (event : WebViewNativeEvent) : handler unit :=
  invoke (onNavigationStateChange props) OnNavigationStateChange event ;; ret tt.

Definition onLoadingStart (event : WebViewNativeEvent) : handler unit :=
  setStartUrl (ev_url event) ;;
  invoke (onLoadStart props) OnLoadStart event ;;
  updateNavigationState event.

Definition onLoadingError (event : WebViewErrorEvent) : handler unit :=
  byError <-
    match onError props with
    | Some _ => invoke (onError props) OnError event
    | None =>
        emit (ConsoleWarn "Encountered an error loading page") ;; ret false
    end ;;
  byLoadEnd <- invoke (onLoadEnd props) OnLoadEnd (inr event) ;;
  if defaultPrevented event || byError || byLoadEnd then ret tt
  else
    setViewState ERROR ;;
    setLastErrorEvent (errorNativeEvent event).

Definition onHttpError (event : WebViewNativeEvent) : handler unit :=
  invoke (onHttpErrorProp props) OnHttpError event ;; ret tt.

Definition onRenderProcessGone (event : WebViewNativeEvent) : handler unit :=
  invoke (onRenderProcessGoneProp props) OnRenderProcessGone event ;; ret tt.

Definition onContentProcessDidTerminate (event : WebViewNativeEvent)
  : handler unit :=
  invoke (onContentProcessDidTerminateProp props)
    OnContentProcessDidTerminate event ;; ret tt.

Definition onLoadingFinish (event : WebViewNativeEvent) : handler unit :=
  invoke (onLoad props) OnLoad event ;;
  invoke (onLoadEnd props) OnLoadEnd (inl event) ;;
  let url := ev_url event in
  passes <- lift (passesWhitelistUse url) ;;
  if negb (truthy passes) then ret tt
  else
    current <- getStartUrl ;;
    (if negb (isAndroid (Platform_OS platform)) || sameUrl url current
     then setViewState IDLE
     else ret tt) ;;
    updateNavigationState event.

Definition onMessage (nativeEvent : WebViewMessageNative) : handler unit :=
  passes <- lift (passesWhitelistUse (ev_url (msg_event nativeEvent))) ;;
  if negb (truthy passes) then ret tt
  else
    parsed <- lift (JSON_parse platform (msg_data nativeEvent)) ;;
    validated <- lift (validateData props parsed) ;;
    data <- lift (JSON_stringify platform validated) ;;
    meta <- lift (validateMeta props
                    {| ev_url := ev_url (msg_event nativeEvent);
                       ev_loading := ev_loading (msg_event nativeEvent);
                       ev_title := ev_title (msg_event nativeEvent);
                       ev_canGoBack := ev_canGoBack (msg_event nativeEvent);
                       ev_canGoForward := ev_canGoForward (msg_event nativeEvent);
                       ev_lockIdentifier := ev_lockIdentifier (msg_event nativeEvent) |}) ;;
    invoke (onMessageProp props) OnMessage
      {| message_meta := meta; message_data := data |} ;;
    ret tt.

Definition onLoadingProgress (event : WebViewProgress) : handler unit :=
  let progress := prog_progress event in
  (if isAndroid (Platform_OS platform) && Qeq_bool progress 1
   then updateViewState (fun prevViewState =>
          if isLOADING prevViewState then IDLE else prevViewState)
   else ret tt) ;;
  invoke (onLoadProgress props) OnLoadProgress event ;;
  ret tt.

Definition onShouldStartLoadWithRequest : WebViewNativeEvent -> handler unit :=
  createOnShouldStartLoadWithRequest platform
    (originWhitelist props) (onShouldStartLoadWithRequestProp props).

End Logic.
End Rev1.

(* ------------------------------------------------------------------ *)
(** ** [useWebWiewLogic], second revision (lines 358-482) *)

Module Rev2.
Section Logic.

Variable jsobject : Type.
Variable platform : Platform jsobject.
Variable props : Props jsobject.

Definition initialState : HookState :=
  {| viewState := if startInLoadingState props then LOADING else IDLE;
     lastErrorEvent := None;
     startUrl := None |}.

Definition passesWhitelist (url : string) : completion (option bool) :=
  if isEmpty url then Normal (Some false)
  else _passesWhitelist (urlOrigin platform)
         (compileWhitelist (originWhitelist props)) url.

Definition passesWhitelistUse := passesWhitelist.

Definition extractMeta (nativeEvent : WebViewNativeEvent) : WebViewNativeEvent :=
  {| ev_url := ev_url nativeEvent;
     ev_loading := ev_loading nativeEvent;
     ev_title := ev_title nativeEvent;
     ev_canGoBack := ev_canGoBack nativeEvent;
     ev_canGoForward := ev_canGoForward nativeEvent;
     ev_lockIdentifier := ev_lockIdentifier nativeEvent |}.

Definition onLoadingStart (event : WebViewNativeEvent) : handler unit :=
  setStartUrl (ev_url event) ;;
  invoke (onLoadStart props) OnLoadStart event ;;
  ret tt.

Definition onLoadingError (event : WebViewErrorEvent) : handler unit :=
  byError <-
    match onError props with
    | Some _ => invoke (onError props) OnError event
    | None =>
        emit (ConsoleWarn "Encountered an error loading page") ;; ret false
    end ;;
  byLoadEnd <- invoke (onLoadEnd props) OnLoadEnd (inr event) ;;
  if defaultPrevented event || byError || byLoadEnd then ret tt
  else
    setViewState ERROR ;;
    setLastErrorEvent (errorNativeEvent event).

Definition onLoadingFinish (event : WebViewNativeEvent) : handler unit :=
  invoke (onLoad props) OnLoad event ;;
  invoke (onLoadEnd props) OnLoadEnd (inl event) ;;
  let url := ev_url event in
  passes <- lift (passesWhitelistUse url) ;;
  if negb (truthy passes) then ret tt
  else
    current <- getStartUrl ;;
    if negb (isAndroid (Platform_OS platform)) || sameUrl url current
    then setViewState IDLE
    else ret tt.

Definition onMessage (nativeEvent : WebViewMessageNative) : handler unit :=
  passes <- lift (passesWhitelistUse (ev_url (msg_event nativeEvent))) ;;
  if negb (truthy passes) then ret tt
  else
    parsed <- lift (JSON_parse platform (msg_data nativeEvent)) ;;
    validated <- lift (validateData props parsed) ;;
    data <- lift (JSON_stringify platform validated) ;;
    meta <- lift (validateMeta props (extractMeta (msg_event nativeEvent))) ;;
    invoke (onMessageProp props) OnMessage
      {| message_meta := meta; message_data := data |} ;;
    ret tt.

Definition onLoadingProgress (event : WebViewProgress) : handler unit :=
  let progress := prog_progress event in
  passes <- lift (passesWhitelistUse (ev_url (prog_event event))) ;;
  if negb (truthy passes) then ret tt
  else
    if isAndroid (Platform_OS platform) && Qeq_bool progress 1
    then updateViewState (fun prevViewState =>
           if isLOADING prevViewState then IDLE else prevViewState)
    else ret tt.

Definition onShouldStartLoadWithRequest : WebViewNativeEvent -> handler unit :=
  createOnShouldStartLoadWithRequest platform
    (originWhitelist props) (onShouldStartLoadWithRequestProp props).

End Logic.
End Rev2.

(* ------------------------------------------------------------------ *)
(** ** The component around the hook ([WebView.ios.tsx]) *)

(** The [reload] command of the imperative handle. *)
Definition reload : handler unit :=
  setViewState LOADING ;; emit CommandReload.

(** What is rendered next to the native view. *)
Inductive OtherView : Type :=
| RenderLoading
| RenderError (errorDomain : option string) (errorCode : Z) (errorDesc : string).

(** The [otherView] computation of the render function; [invariant] raises
    when its condition is false. *)
Definition otherView (s : HookState) : completion (option OtherView) :=
  match viewState s with
  | LOADING => Normal (Some RenderLoading)
  | ERROR =>
      match lastErrorEvent s with
      | Some e =>
          Normal (Some (RenderError (err_domain e) (err_code e) (err_description e)))
      | None => Throw (InvariantViolation "lastErrorEvent expected to be non-null")
      end
  | IDLE => Normal None
  end.

(** Everything that can act on the hook state of a mounted component. *)
Inductive operation : Type :=
| LoadingStart (e : WebViewNativeEvent)
| LoadingProgress (e : WebViewProgress)
| LoadingError (e : WebViewErrorEvent)
| LoadingFinish (e : WebViewNativeEvent)
| HttpError (e : WebViewNativeEvent)
| RenderProcessGone (e : WebViewNativeEvent)
| ContentProcessDidTerminate (e : WebViewNativeEvent)
| Message (e : WebViewMessageNative)
| ShouldStartLoadWithRequest (e : WebViewNativeEvent)
| Reload.

Definition isLoadingError (op : operation) : bool :=
  match op with LoadingError _ => true | _ => false end.

Section Component.

Variable jsobject : Type.
Variable platform : Platform jsobject.
Variable props : Props jsobject.

Definition perform1 (op : operation) : handler unit :=
  match op with
  | LoadingStart e => Rev1.onLoadingStart props e
  | LoadingProgress e => Rev1.onLoadingProgress platform props e
  | LoadingError e => Rev1.onLoadingError props e
  | LoadingFinish e => Rev1.onLoadingFinish platform props e
  | HttpError e => Rev1.onHttpError props e
  | RenderProcessGone e => Rev1.onRenderProcessGone props e
  | ContentProcessDidTerminate e => Rev1.onContentProcessDidTerminate props e
  | Message e => Rev1.onMessage platform props e
  | ShouldStartLoadWithRequest e => Rev1.onShouldStartLoadWithRequest platform props e
  | Reload => reload
  end.

(** The second revision has no handler for the three pass-through
    notifications: the component does not subscribe to them. *)
Definition perform2 (op : operation) : handler unit :=
  match op with
  | LoadingStart e => Rev2.onLoadingStart props e
  | LoadingProgress e => Rev2.onLoadingProgress platform props e
  | LoadingError e => Rev2.onLoadingError props e
  | LoadingFinish e => Rev2.onLoadingFinish platform props e
  | HttpError _ | RenderProcessGone _ | ContentProcessDidTerminate _ => ret tt
  | Message e => Rev2.onMessage platform props e
  | ShouldStartLoadWithRequest e => Rev2.onShouldStartLoadWithRequest platform props e
  | Reload => reload
  end.

(** The hook states a component can be in: the initial one and those
    that operations lead to. *)
Inductive reachable (perform : operation -> handler unit) : HookState -> Prop :=
| reach_initial (s : HookState) :
    s = Rev1.initialState props \/ s = Rev2.initialState props ->
    reachable perform s
| reach_step (s : HookState) (op : operation) :
    reachable perform s -> reachable perform (final (perform op s)).

End Component.

(* ------------------------------------------------------------------ *)
(** ** Version gate ([versionPasses], second revision, lines 484-515) *)

(** [/^[0-9]+(\.[0-9]+)*$/.test(s)]: [inNumber] tells whether a digit has
    just been read, which is where a dot or the end of input may follow. *)
Fixpoint versionRegexFrom (inNumber : bool) (s : string) : bool :=
  match s with
  | EmptyString => inNumber
  | String c rest =>
      if isDigit c then versionRegexFrom true rest
      else if Ascii.eqb c "." && inNumber then versionRegexFrom false rest
      else false
  end.

Definition versionRegex_test (s : string) : bool := versionRegexFrom false s.

(** [Number(s)] on a string of decimal digits.  The value is exact here;
    JavaScript rounds components of 2^53 and more. *)
Definition digitValue (c : ascii) : N := N.of_nat (nat_of_ascii c - 48).

Fixpoint numberFrom (acc : N) (s : string) : N :=
  match s with
  | EmptyString => acc
  | String c rest => numberFrom (10 * acc + digitValue c)%N rest
  end.

Definition Number (s : string) : N := numberFrom 0%N s.

(** The comparison loop: [for (let i = 0; i < len; i += 1)], entered at
    index [i] with [steps] iterations left. *)
Fixpoint compareFrom (versionParts minimumParts : list N) (i steps : nat) : bool :=
  match steps with
  | O => true
  | S steps' =>
      let ver := nth i versionParts 0%N in
      let min := nth i minimumParts 0%N in
      if (min <? ver)%N then true
      else if (ver <? min)%N then false
      else compareFrom versionParts minimumParts (S i) steps'
  end.

(** [version] or [minimum] is [undefined] or the empty string. *)
Definition falsy (s : option string) : bool :=
  match s with
  | None => true
  | Some t => isEmpty t
  end.

(** [variants.some(x => ...)] over a callback whose evaluation may be cut
    short ([None]). *)
Fixpoint someCut {A : Type} (f : A -> option bool) (l : list A) : option bool :=
  match l with
  | [] => Some false
  | x :: rest =>
      match f x with
      | Some true => Some true
      | Some false => someCut f rest
      | None => None
      end
  end.

(** [a && b], where [b] is evaluated only if [a] is true. *)
Definition andCut (a b : option bool) : option bool :=
  match a with
  | Some true => b
  | Some false => Some false
  | None => None
  end.

Definition notCut (a : option bool) : option bool := option_map negb a.

(** The body of [versionPasses]; [self] stands for the recursive calls.
    [undefined] arguments are [None]. *)
Definition versionPassesBody
    (self : option string -> option string -> option bool)
    (version minimum : option string) : option bool :=
  match version, minimum with
  | Some version, Some minimum =>
      if isEmpty version || isEmpty minimum then Some false
      else if includes ", " minimum then
        let variants := split ", " minimum in
        if negb (forallb (fun x => includes " <" x) (sliceInit variants))
        then Some false
        else someCut (fun x => self (Some version) (Some x)) variants
      else if includes " <" minimum then
        let parts := split " <" minimum in
        let min := nth_error parts 0 in
        let max := nth_error parts 1 in
        let rest := skipn 2 parts in
        if (0 <? List.length rest)%nat then Some false
        else andCut (self (Some version) min)
               (andCut (notCut (self (Some version) max))
                       (self max (Some version)))
      else
        if negb (versionRegex_test version) || negb (versionRegex_test minimum)
        then Some false
        else
          let versionParts := map Number (split "." version) in
          let minimumParts := map Number (split "." minimum) in
          let len := Nat.max (List.length versionParts) (List.length minimumParts) in
          Some (compareFrom versionParts minimumParts 0 len)
  | _, _ => Some false
  end.

(** [versionPasses] unfolded [fuel] calls deep; [None] when the depth is
    used up. *)
Fixpoint versionPassesWithin (fuel : nat) (version minimum : option string)
  : option bool :=
  match fuel with
  | O => None
  | S fuel' => versionPassesBody (versionPassesWithin fuel') version minimum
  end.

Definition size (s : option string) : nat :=
  match s with
  | Some t => String.length t
  | None => 0
  end.

(** Every recursive call is on arguments of smaller total length, so this
    depth is never used up ([versionPasses_returns] below). *)
Definition versionPasses (version minimum : option string) : option bool :=
  versionPassesWithin (S (size version + size minimum)) version minimum.

(** The hard minimum of the iOS component. *)
Definition hardMinimumIOSVersion : string :=
  "12.5.6 <13, 13.6.1 <14, 14.8.1 <15, 15.7.1".

(* ------------------------------------------------------------------ *)
(** ** A sample platform and host, for the worked examples *)

Module Sample.

(** The parsed JSON values of the sample texts. *)
Inductive json : Type :=
| JNull
| JBool (b : bool)
| JEmptyObject
| JEmptyArray.

(** [new URL(url).origin] on the URLs of the examples, with the results the
    URL standard gives for them; any other input counts as unparsable. *)
Definition origin (url : string) : completion string :=
  if String.eqb url "https://example.com/index.html" then Normal "https://example.com"
  else if String.eqb url "https://example.com/" then Normal "https://example.com"
  else if String.eqb url "https://example.com/start" then Normal "https://example.com"
  else if String.eqb url "http://example.com/" then Normal "http://example.com"
  else if String.eqb url "https://EXAMPLE.com/" then Normal "https://example.com"
  else if String.eqb url "about:blank" then Normal "null"
  else Throw (TypeError "Invalid URL").

(** [JSON.parse] on the texts of the examples; any other text counts as
    malformed. *)
Definition parse (text : string) : completion json :=
  if String.eqb text "null" then Normal JNull
  else if String.eqb text "true" then Normal (JBool true)
  else if String.eqb text "false" then Normal (JBool false)
  else if String.eqb text "{}" then Normal JEmptyObject
  else if String.eqb text "[]" then Normal JEmptyArray
  else Throw (SyntaxError "Unexpected token").

Definition stringify (v : json) : completion string :=
  Normal match v with
         | JNull => "null"
         | JBool true => "true"
         | JBool false => "false"
         | JEmptyObject => "{}"
         | JEmptyArray => "[]"
         end.

Definition platform (os : OS) : Platform json :=
  {| urlOrigin := origin;
     JSON_parse := parse;
     JSON_stringify := stringify;
     Platform_OS := os |}.

(** A host that supplies [onMessage], [onLoad] and [onLoadEnd], accepts
    every message and leaves the other callbacks out. *)
Definition props : Props json :=
  {| startInLoadingState := true;
     onNavigationStateChange := None;
     onLoadStart := None;
     onLoad := Some (fun _ => false);
     onLoadProgress := None;
     onLoadEnd := Some (fun _ => false);
     onError := None;
     onHttpErrorProp := None;
     onMessageProp := Some (fun _ => false);
     onRenderProcessGoneProp := None;
     onContentProcessDidTerminateProp := None;
     originWhitelist := defaultOriginWhitelist;
     onShouldStartLoadWithRequestProp := None;
     validateMeta := fun m => Normal m;
     validateData := fun d => Normal d |}.

(** The same host with a data validator that rejects everything. *)
Definition strictProps : Props json :=
  {| startInLoadingState := true;
     onNavigationStateChange := None;
     onLoadStart := None;
     onLoad := Some (fun _ => false);
     onLoadProgress := None;
     onLoadEnd := Some (fun _ => false);
     onError := None;
     onHttpErrorProp := None;
     onMessageProp := Some (fun _ => false);
     onRenderProcessGoneProp := None;
     onContentProcessDidTerminateProp := None;
     originWhitelist := defaultOriginWhitelist;
     onShouldStartLoadWithRequestProp := None;
     validateMeta := fun m => Normal m;
     validateData := fun _ => Throw (HostError "rejected") |}.

Definition navigation (url : string) (lockIdentifier : Z) : WebViewNativeEvent :=
  {| ev_url := url;
     ev_loading := false;
     ev_title := "Example";
     ev_canGoBack := false;
     ev_canGoForward := false;
     ev_lockIdentifier := lockIdentifier |}.

Definition message (url data : string) : WebViewMessageNative :=
  {| msg_event := navigation url 0; msg_data := data |}.


Definition errorEvent (url : string) (prevented : bool) : WebViewErrorEvent :=
  {| errorNativeEvent :=
       {| err_event := navigation url 0;
          err_domain := Some "NSURLErrorDomain";
          err_code := (-1009)%Z;
          err_description := "offline" |};
     defaultPrevented := prevented |}.

Definition loadingState (start : option string) : HookState :=
  {| viewState := LOADING; lastErrorEvent := None; startUrl := start |}.

End Sample.

(* ------------------------------------------------------------------ *)
(** ** The claims, as predicates on the handlers *)

Local Open Scope handler_scope.

(** The calls [cb?.(event)] adds to the trace. *)
Definition listenerCalls {E : Type} (cb : listener E) (c : E -> call) (e : E)
  : list call :=
  match cb with
  | Some _ => [c e]
  | None => []
  end.

Definition withViewState (v : ViewState) (s : HookState) : HookState :=
  {| viewState := v; lastErrorEvent := lastErrorEvent s; startUrl := startUrl s |}.

(** The whitelist check answered exactly [true]. *)
Definition passed (r : completion (option bool)) : bool :=
  match r with
  | Normal (Some true) => true
  | _ => false
  end.

(** The compiled entry of a glob, applied to a subject. *)
Definition globTest (p s : string) : bool :=
  Regex.matchHere (globTerms p ++ [Regex.TAtom Regex.AEnd]) true s.



(** Only a load-start event writes the start URL. *)
Definition isLoadingStart (op : operation) : bool :=
  match op with LoadingStart _ => true | _ => false end.

(** What C9 says of the run [r] of a message handler from state [s]. *)
Definition failsClosed (r : run unit) (s : HookState) : Prop :=
  filter isOnMessage (trace r) = []
  /\ (exists v, outcome r = Normal v)
  /\ final r = s.

(** [c] occurs in [s]. *)
Fixpoint hasChar (c : ascii) (s : string) : bool :=
  match s with
  | EmptyString => false
  | String d rest => Ascii.eqb c d || hasChar c rest
  end.

(** The comparison of two dotted versions, as the last part of
    [versionPasses] computes it. *)
Definition compareVersions (version minimum : string) : bool :=
  let versionParts := map Number (split "." version) in
  let minimumParts := map Number (split "." minimum) in
  compareFrom versionParts minimumParts 0
    (Nat.max (List.length versionParts) (List.length minimumParts)).

Section Contracts.

Variable jsobject : Type.
Variable platform : Platform jsobject.
Variable props : Props jsobject.

(** What the claim says of a load-finish handler, given the whitelist
    check it uses and the calls it makes after the two callbacks. *)
Definition finishContract
    (onLoadingFinish : WebViewNativeEvent -> handler unit)
    (passesWhitelist : string -> completion (option bool))
    (after : WebViewNativeEvent -> list call) : Prop :=
  forall (event : WebViewNativeEvent) (s : HookState),
    let r := onLoadingFinish event s in
    let pass := passed (passesWhitelist (ev_url event)) in
    (* onLoad, then onLoadEnd, whatever the whitelist says *)
    trace r = listenerCalls (onLoad props) OnLoad event
              ++ listenerCalls (onLoadEnd props) OnLoadEnd (inl event)
              ++ (if pass then after event else [])
    (* the only change of state is the transition to IDLE *)
    /\ final r
       = (if pass && (negb (isAndroid (Platform_OS platform))
                      || sameUrl (ev_url event) (startUrl s))
          then withViewState IDLE s else s)
    (* a failed whitelist leaves the state as it was *)
    /\ (pass = false -> final r = s)
    (* off Android a whitelist pass is enough *)
    /\ (pass = true -> isAndroid (Platform_OS platform) = false ->
        viewState (final r) = IDLE)
    (* on Android the finished URL must be the recorded start URL *)
    /\ (isAndroid (Platform_OS platform) = true ->
        startUrl s <> Some (ev_url event) -> final r = s).

(** [event.isDefaultPrevented()] once [onError] and [onLoadEnd] have
    seen the event. *)
Definition isDefaultPrevented (event : WebViewErrorEvent) : bool :=
  defaultPrevented event
  || match onError props with Some f => f event | None => false end
  || match onLoadEnd props with Some f => f (inr event) | None => false end.

Definition afterError (event : WebViewErrorEvent) (s : HookState) : HookState :=
  if isDefaultPrevented event then s
  else {| viewState := ERROR;
          lastErrorEvent := Some (errorNativeEvent event);
          startUrl := startUrl s |}.

Definition afterProgress (gate : bool) (event : WebViewProgress)
    (s : HookState) : HookState :=
  if gate && isAndroid (Platform_OS platform)
     && Qeq_bool (prog_progress event) 1 && isLOADING (viewState s)
  then withViewState IDLE s else s.


(** What C7 says of the operations of a component. *)
Definition errorContract (perform : operation -> handler unit) : Prop :=
  (* in every state the component reaches, ERROR comes with a record,
     and the render function's invariant holds *)
  (forall s, reachable props perform s ->
     (viewState s = ERROR -> lastErrorEvent s <> None)
     /\ exists view, otherView s = Normal view)
  (* a load-error event sets ERROR and stores its record at once,
     unless it is default-prevented, which changes nothing *)
  /\ (forall event s,
        let s' := final (perform (LoadingError event) s) in
        if isDefaultPrevented event
        then s' = s
        else viewState s' = ERROR
             /\ lastErrorEvent s' = Some (errorNativeEvent event))
  (* nothing else enters ERROR *)
  /\ (forall op s,
        isLoadingError op = false ->
        viewState (final (perform op s)) = ERROR -> viewState s = ERROR).

(** The state after an operation, for either revision. *)
Definition stepShape (perform : operation -> handler unit) : Prop :=
  forall op s,
    match op with
    | LoadingError event => final (perform op s) = afterError event s
    | LoadingStart event =>
        final (perform op s)
        = {| viewState := viewState s;
             lastErrorEvent := lastErrorEvent s;
             startUrl := Some (ev_url event) |}
    | _ =>
        final (perform op s) = s
        \/ final (perform op s) = withViewState IDLE s
        \/ final (perform op s) = withViewState LOADING s
    end.

(** The run of a message handler, step by step. *)
Definition messageRun (pass : completion (option bool))
    (event : WebViewMessageNative) (s : HookState) : run unit :=
  match pass with
  | Throw e => {| outcome := Throw e; final := s; trace := [] |}
  | Normal (Some true) =>
      match JSON_parse platform (msg_data event) with
      | Throw e => {| outcome := Throw e; final := s; trace := [] |}
      | Normal parsed =>
          match validateData props parsed with
          | Throw e => {| outcome := Throw e; final := s; trace := [] |}
          | Normal validated =>
              match JSON_stringify platform validated with
              | Throw e => {| outcome := Throw e; final := s; trace := [] |}
              | Normal data =>
                  match validateMeta props (Rev2.extractMeta (msg_event event)) with
                  | Throw e => {| outcome := Throw e; final := s; trace := [] |}
                  | Normal validMeta =>
                      {| outcome := Normal tt;
                         final := s;
                         trace := listenerCalls (onMessageProp props) OnMessage
                                    {| message_meta := validMeta;
                                       message_data := data |} |}
                  end
              end
          end
      end
  | Normal _ => {| outcome := Normal tt; final := s; trace := [] |}
  end.

(** What C8 says of a message handler and the whitelist check it uses. *)
Definition messageContract
    (onMessage : WebViewMessageNative -> handler unit)
    (passesWhitelist : string -> completion (option bool)) : Prop :=
  forall (event : WebViewMessageNative) (s : HookState),
    let r := onMessage event s in
    let pass := passed (passesWhitelist (ev_url (msg_event event))) in
    let meta := Rev2.extractMeta (msg_event event) in
    (* a URL that does not pass exactly: no delivery *)
    (pass = false -> filter isOnMessage (trace r) = [])
    (* the data validator raises: no delivery *)
    /\ (forall parsed e,
          pass = true ->
          JSON_parse platform (msg_data event) = Normal parsed ->
          validateData props parsed = Throw e ->
          outcome r = Throw e /\ trace r = [])
    (* the metadata validator raises: no delivery *)
    /\ (forall parsed validated data e,
          pass = true ->
          JSON_parse platform (msg_data event) = Normal parsed ->
          validateData props parsed = Normal validated ->
          JSON_stringify platform validated = Normal data ->
          validateMeta props meta = Throw e ->
          outcome r = Throw e /\ trace r = [])
    (* the state is never altered, so later messages are handled as if
       this one had not arrived *)
    /\ final r = s
    /\ (forall next, onMessage next (final r) = onMessage next s)
    (* otherwise the host receives the validated metadata with the
       re-serialized validated data *)
    /\ (forall parsed validated data validMeta,
          pass = true ->
          JSON_parse platform (msg_data event) = Normal parsed ->
          validateData props parsed = Normal validated ->
          JSON_stringify platform validated = Normal data ->
          validateMeta props meta = Normal validMeta ->
          outcome r = Normal tt
          /\ trace r = listenerCalls (onMessageProp props) OnMessage
                         {| message_meta := validMeta; message_data := data |}).

End Contracts.

(* ------------------------------------------------------------------ *)
(** ** Further definitions: the rest of the component and auxiliary notions *)

(** What [extractOrigin] keeps of the text after the colon: the double
    slash, if it is there, and everything up to the next slash. *)
Definition originTail (after : string) : string :=
  match after with
  | String a (String b after') =>
      if Ascii.eqb a "/" && Ascii.eqb b "/"
      then "//" ++ takeWhile notSlash after'
      else takeWhile notSlash after
  | _ => takeWhile notSlash after
  end.

(** Every character of [s] satisfies [p]. *)
Fixpoint allChars (p : ascii -> bool) (s : string) : bool :=
  match s with
  | EmptyString => true
  | String c rest => p c && allChars p rest
  end.

(** The hook state after a sequence of operations, in order. *)
Fixpoint performAll (perform : operation -> handler unit)
    (ops : list operation) (s : HookState) : HookState :=
  match ops with
  | [] => s
  | op :: rest => performAll perform rest (final (perform op s))
  end.

Definition isReload (op : operation) : bool :=
  match op with Reload => true | _ => false end.

Definition isLoadingFinish (op : operation) : bool :=
  match op with LoadingFinish _ => true | _ => false end.

(** The error record a sequence of operations leaves behind: that of the
    latest load-error event that was not default-prevented. *)
Fixpoint recordedError {jsobject : Type} (props : Props jsobject)
    (ops : list operation) (record : option WebViewError) : option WebViewError :=
  match ops with
  | [] => record
  | LoadingError event :: rest =>
      recordedError props rest
        (if isDefaultPrevented props event then record
         else Some (errorNativeEvent event))
  | _ :: rest => recordedError props rest record
  end.

(** How one operation can move the view state, for either revision. *)
Definition moves (perform : operation -> handler unit) : Prop :=
  forall op s,
    let v := viewState s in
    let v' := viewState (final (perform op s)) in
    v' = v
    \/ (isReload op = true /\ v' = LOADING)
    \/ (isLoadingFinish op = true /\ v' = IDLE)
    \/ (isLoadingError op = true /\ v' = ERROR)
    \/ (v = LOADING /\ v' = IDLE).

(** The stored error record after each operation. *)
Definition keepsRecord {jsobject : Type} (props : Props jsobject)
    (perform : operation -> handler unit) : Prop :=
  forall op s,
    lastErrorEvent (final (perform op s))
    = match op with
      | LoadingError event =>
          if isDefaultPrevented props event then lastErrorEvent s
          else Some (errorNativeEvent event)
      | _ => lastErrorEvent s
      end.

(* ------------------------------------------------------------------ *)
(** ** The version check of the iOS component ([WebView.ios.tsx]) *)

(** What the component returns. *)
Inductive Rendered : Type :=
| UnsupportedVersionCustom          (* [<UnsupportedVersionComponent device="ios"/>] *)
| UnsupportedVersionText            (* the red "outdated and insecure" text *)
| WebViewShown (other : option OtherView).

(** [versionPasses(version, minimumIOSVersion) &&
     versionPasses(version, hardMinimumIOSVersion)] *)
Definition versionSupported (version : string) (minimumIOSVersion : option string)
  : option bool :=
  andCut (versionPasses (Some version) minimumIOSVersion)
         (versionPasses (Some version) (Some hardMinimumIOSVersion)).

(** The render function from the version check on: [version] is
    [String(Platform.Version)], [custom] tells whether the host supplied
    [unsupportedVersionComponent].  [None] only if the version check were
    cut short, which does not happen ([renderComponent_returns]). *)
Definition renderComponent (version : string) (minimumIOSVersion : option string)
    (custom : bool) (s : HookState) : option (completion Rendered) :=
  match versionSupported version minimumIOSVersion with
  | Some false =>
      Some (Normal (if custom then UnsupportedVersionCustom
                    else UnsupportedVersionText))
  | Some true => Some (cbind (otherView s) (fun v => Normal (WebViewShown v)))
  | None => None
  end.

(** A plain dotted minimum as a lower bound, and a two-sided range. *)
Definition atLeast (version minimum : string) : bool :=
  negb (isEmpty version) && versionRegex_test version
  && compareVersions version minimum.

Definition inRange (version min max : string) : bool :=
  atLeast version min && negb (atLeast version max).

(* ------------------------------------------------------------------ *)
(** ** [useWarnIfChanges] ([WebView.ios.tsx]) *)

Section UseWarnIfChanges.

Variable T : Type.

(** [a === b] on the values of the watched property. *)
Variable same : T -> T -> bool.

(** One render: [ref] is the reference cell left by the previous render
    ([None] on the first, where [useRef(value)] initialises it).  Returns the
    cell's new content and the warnings logged. *)
Definition useWarnIfChanges (ref : option T) (value : T) (name : string)
  : T * list string :=
  match ref with
  | None => (value, [])
  | Some current =>
      if negb (same current value)
      then (value,
            [("Changes to property " ++ name
              ++ " do nothing after the initial render.")%string])
      else (current, [])
  end.

(** The warnings of successive renders with the given values. *)
Fixpoint warnings (ref : option T) (values : list T) (name : string)
  : list string :=
  match values with
  | [] => []
  | value :: rest =>
      snd (useWarnIfChanges ref value name)
      ++ warnings (Some (fst (useWarnIfChanges ref value name))) rest name
  end.

(** The number of places where a value differs from the one before it. *)
Fixpoint changes (previous : T) (values : list T) : nat :=
  match values with
  | [] => 0
  | value :: rest =>
      (if same previous value then 0 else 1) + changes value rest
  end.

End UseWarnIfChanges.

(* ================================================================== *)
(** * Properties *)

(* ------------------------------------------------------------------ *)
(** ** The string primitives and the matcher on concrete inputs *)

Example extractOrigin_https :
  extractOrigin "https://example.com/a/b?x=1" = "https://example.com".
Proof. reflexivity. Qed.

Example extractOrigin_about : extractOrigin "about:blank" = "about:blank".
Proof. reflexivity. Qed.

Example extractOrigin_single_slash : extractOrigin "file:/etc/passwd" = "file:".
Proof. reflexivity. Qed.

Example extractOrigin_no_scheme : extractOrigin "//example.com/x" = EmptyString.
Proof. reflexivity. Qed.

Example extractOrigin_one_letter_scheme : extractOrigin "a:b" = EmptyString.
Proof. reflexivity. Qed.

Example compile_default :
  compileWhitelist defaultOriginWhitelist = ["^about:blank$"; "^https://.*$"].
Proof. reflexivity. Qed.

Example compile_escapes :
  compileWhitelist ["https://*.example.com"; "a\*"]
  = ["^about:blank$"; "^https://.*\.example\.com$"; "^a\\.*$"].
Proof. reflexivity. Qed.

Example split_examples :
  split ", " "12.5.6 <13, 13.6.1 <14, 15.7.1" = ["12.5.6 <13"; "13.6.1 <14"; "15.7.1"]
  /\ split ", " "a, " = ["a"; EmptyString]
  /\ split " <" "1 <2 <3" = ["1"; "2"; "3"]
  /\ split "." "1..2" = ["1"; EmptyString; "2"]
  /\ split ", " EmptyString = [EmptyString].
Proof. repeat split. Qed.

Example regex_examples :
  Regex.test "^https://.*$" "https://example.com" = Normal true
  /\ Regex.test "^https://.*$" "http://example.com" = Normal false
  /\ Regex.test "^about:blank$" "about:blank" = Normal true
  /\ Regex.test "^a\\.*$" "a\bc" = Normal true
  /\ Regex.test "b.*d" "abcde" = Normal true
  /\ Regex.test "a(b" "ab" = Throw (SyntaxError "Invalid regular expression").
Proof. repeat split. Qed.

(** With the sample URL parser: a whitelisted page passes, a page outside
    the whitelist does not, a URL whose text differs from its parsed origin
    gives [null] (so does [about:blank], whose parsed origin is the string
    [null]), and an unparsable URL raises. *)
Example passesWhitelist_samples :
  let check := _passesWhitelist Sample.origin (compileWhitelist defaultOriginWhitelist) in
  check "https://example.com/index.html" = Normal (Some true)
  /\ check "http://example.com/" = Normal (Some false)
  /\ check "example.com/index.html" = Normal (Some false)
  /\ check "https://EXAMPLE.com/" = Normal None
  /\ check "about:blank" = Normal None
  /\ check "https://" = Throw (TypeError "Invalid URL").
Proof. repeat split. Qed.

(* ------------------------------------------------------------------ *)
(** ** Compiled whitelist entries parse to the terms of their glob *)

Section CharClasses.

Lemma operator_is_syntax_or_dash (c : ascii) :
  isRegexOperator c = Regex.isSyntaxChar c || Ascii.eqb c "-".
Proof. destruct c as [[] [] [] [] [] [] [] []]; reflexivity. Qed.

Lemma operator_is_identity_escape (c : ascii) :
  isRegexOperator c = true -> Regex.isIdentityEscape c = true.
Proof.
  rewrite operator_is_syntax_or_dash. unfold Regex.isIdentityEscape.
  intros ->. reflexivity.
Qed.

Lemma star_is_operator : isRegexOperator "*" = true.
Proof. reflexivity. Qed.

Lemma non_operator_plain (c : ascii) :
  isRegexOperator c = false ->
  Ascii.eqb c "*" = false /\ Ascii.eqb c backslash = false
  /\ Ascii.eqb c "." = false /\ Ascii.eqb c "^" = false
  /\ Ascii.eqb c "$" = false /\ Regex.isSyntaxChar c = false.
Proof. destruct c as [[] [] [] [] [] [] [] []]; cbn; intuition congruence. Qed.

End CharClasses.

Section GlobToRegex.

Import Regex.

(** The head of an escaped string is never a bare star. *)
Lemma escape_head_not_star (p : string) :
  match escapeStringRegexp p with
  | String d _ => Ascii.eqb d "*" = false
  | EmptyString => True
  end.
Proof.
  destruct p as [|c p]; [exact I|].
  cbn [escapeStringRegexp].
  destruct (isRegexOperator c) eqn:Hop; [reflexivity|].
  apply non_operator_plain in Hop. tauto.
Qed.

Lemma replace_step (c : ascii) (p : string) :
  replaceEscapedStar (String c (escapeStringRegexp p))
  = String c (replaceEscapedStar (escapeStringRegexp p)).
Proof.
  generalize (escape_head_not_star p).
  destruct (escapeStringRegexp p) as [|d rest]; intros Hhd; [reflexivity|].
  cbv beta iota in Hhd.
  cbn [replaceEscapedStar]. rewrite Hhd, andb_false_r. reflexivity.
Qed.

(** What one pattern character contributes to the regex source. *)
Lemma translate_cons (c : ascii) (p : string) :
  replaceEscapedStar (escapeStringRegexp (String c p))
  = if Ascii.eqb c "*" then String "." (String "*" (replaceEscapedStar (escapeStringRegexp p)))
    else if isRegexOperator c
         then String backslash (String c (replaceEscapedStar (escapeStringRegexp p)))
         else String c (replaceEscapedStar (escapeStringRegexp p)).
Proof.
  destruct (Ascii.eqb_spec c "*") as [->|Hne].
  - reflexivity.
  - assert (Hc : Ascii.eqb c "*" = false) by (apply Ascii.eqb_neq; exact Hne).
    change (escapeStringRegexp (String c p))
      with (if isRegexOperator c
            then String backslash (String c (escapeStringRegexp p))
            else String c (escapeStringRegexp p)).
    destruct (isRegexOperator c) eqn:Hop.
    + change (replaceEscapedStar (String backslash (String c (escapeStringRegexp p))))
        with (if Ascii.eqb backslash backslash && Ascii.eqb c "*"
              then String "." (String "*" (replaceEscapedStar (escapeStringRegexp p)))
              else String backslash
                     (replaceEscapedStar (String c (escapeStringRegexp p)))).
      rewrite Hc, andb_false_r, replace_step. reflexivity.
    + apply replace_step.
Qed.

Lemma parse_translated (p : string) : forall prev,
  parseFrom prev (replaceEscapedStar (escapeStringRegexp p) ++ "$")
  = Some (flush prev ++ globTerms p ++ [TAtom AEnd]).
Proof.
  induction p as [|c p IH]; intros prev.
  - destruct prev; reflexivity.
  - rewrite translate_cons.
    destruct (Ascii.eqb_spec c "*") as [->|Hne].
    + cbn [append parseFrom globTerms]. cbn [Ascii.eqb Bool.eqb].
      cbn. rewrite IH. reflexivity.
    + assert (Hc : Ascii.eqb c "*" = false) by (apply Ascii.eqb_neq; exact Hne).
      cbn [globTerms]. rewrite Hc.
      destruct (isRegexOperator c) eqn:Hop.
      * apply operator_is_identity_escape in Hop.
        change (parseFrom prev (String backslash (String c (replaceEscapedStar (escapeStringRegexp p))) ++ "$"))
          with (if isIdentityEscape c
                then option_map (app (flush prev))
                       (parseFrom (Some (AChar c))
                          (replaceEscapedStar (escapeStringRegexp p) ++ "$"))
                else None).
        rewrite Hop, IH. reflexivity.
      * apply non_operator_plain in Hop.
        destruct Hop as (H1 & H2 & H3 & H4 & H5 & H6).
        cbn [append parseFrom]. rewrite H1, H2, H3, H4, H5, H6, IH.
        reflexivity.
Qed.

Lemma parse_originWhitelistToRegex (p : string) :
  parse (originWhitelistToRegex p)
  = Some (TAtom AStart :: globTerms p ++ [TAtom AEnd]).
Proof.
  unfold parse, originWhitelistToRegex.
  change (parseFrom None ("^" ++ replaceEscapedStar (escapeStringRegexp p) ++ "$"))
    with (option_map (app (flush None))
            (parseFrom (Some AStart)
               (replaceEscapedStar (escapeStringRegexp p) ++ "$"))).
  rewrite parse_translated. reflexivity.
Qed.

End GlobToRegex.

(* ------------------------------------------------------------------ *)
(** ** The matcher on compiled entries is glob matching *)

Section MatchGlob.

Import Regex.

Lemma matchHere_star_cons (a : atom) (r : list term) (b : bool)
      (c : ascii) (s : string) :
  matchHere (TStar a :: r) b (String c s)
  = (atomAccepts a c && matchHere (TStar a :: r) false s)
    || matchHere r b (String c s).
Proof. reflexivity. Qed.

Lemma matchHere_star_nil (a : atom) (r : list term) (b : bool) :
  matchHere (TStar a :: r) b EmptyString = matchHere r b EmptyString.
Proof. reflexivity. Qed.

Lemma matchHere_char_cons (d : ascii) (r : list term) (b : bool) (s : string) :
  matchHere (TAtom (AChar d) :: r) b s
  = match s with
    | EmptyString => false
    | String c s' => Ascii.eqb d c && matchHere r false s'
    end.
Proof. reflexivity. Qed.

Lemma glob_star_inv (p s : string) :
  GlobMatches (String "*" p) s ->
  exists t s', s = (t ++ s')%string /\ GlobMatches p s'.
Proof.
  intros H. inversion H; subst.
  - eauto.
  - congruence.
Qed.

Lemma glob_star_skip (p s : string) (c : ascii) :
  GlobMatches (String "*" p) s -> GlobMatches (String "*" p) (String c s).
Proof.
  intros H. apply glob_star_inv in H. destruct H as (t & s' & -> & H).
  change (String c (t ++ s')%string) with (String c t ++ s')%string.
  apply glob_star. exact H.
Qed.

Lemma glob_star_here (p s : string) :
  GlobMatches p s -> GlobMatches (String "*" p) s.
Proof.
  intros H. change s with (EmptyString ++ s)%string. apply glob_star. exact H.
Qed.

(** Between the anchors, the compiled terms accept exactly the subjects
    the glob matches, as long as the subject has no line terminator (which
    [.] refuses). *)
Lemma matchHere_glob (p : string) : forall (s : string) (b : bool),
  noLineTerminator s = true ->
  (matchHere (globTerms p ++ [TAtom AEnd]) b s = true <-> GlobMatches p s).
Proof.
  induction p as [|c p IH]; intros s b Hs.
  - cbn. destruct s; split; intros H; try constructor; try discriminate.
    inversion H.
  - cbn [globTerms app]. destruct (Ascii.eqb_spec c "*") as [->|Hne].
    + revert b. induction s as [|d s IHs]; intros b.
      * rewrite matchHere_star_nil, IH by exact Hs. split.
        -- apply glob_star_here.
        -- intros H. apply glob_star_inv in H.
           destruct H as (t & s' & Heq & H).
           destruct t; [|discriminate]. cbn in Heq. subst s'. exact H.
      * cbn [noLineTerminator] in Hs. apply andb_true_iff in Hs.
        destruct Hs as [Hd Hs'].
        rewrite matchHere_star_cons. cbn [atomAccepts]. rewrite Hd.
        cbn [andb]. rewrite orb_true_iff, (IHs Hs' false).
        rewrite IH by (cbn [noLineTerminator]; rewrite Hd, Hs'; reflexivity).
        split.
        -- intros [H|H]; [apply glob_star_skip|apply glob_star_here]; exact H.
        -- intros H. apply glob_star_inv in H.
           destruct H as (t & s' & Heq & H).
           destruct t as [|e t].
           ++ cbn in Heq. subst s'. right. exact H.
           ++ cbn in Heq. injection Heq as -> ->. left.
              apply glob_star. exact H.
    + rewrite matchHere_char_cons. destruct s as [|d s].
      * split; [discriminate|]. intros H. inversion H; congruence.
      * cbn [noLineTerminator] in Hs. apply andb_true_iff in Hs.
        destruct Hs as [_ Hs'].
        rewrite andb_true_iff, (IH s false Hs'). split.
        -- intros [Hcd H]. apply Ascii.eqb_eq in Hcd. subst d.
           apply glob_char; assumption.
        -- intros H. inversion H; subst.
           ++ congruence.
           ++ split; [apply Ascii.eqb_refl|assumption].
Qed.

Lemma searchFrom_anchored_later (r : list term) (s : string) :
  searchFrom (TAtom AStart :: r) false s = false.
Proof. induction s as [|c s IH]; cbn; [reflexivity|exact IH]. Qed.

Lemma searchFrom_anchored (r : list term) (s : string) :
  searchFrom (TAtom AStart :: r) true s = matchHere r true s.
Proof.
  destruct s as [|c s].
  - cbn. apply orb_false_r.
  - cbn [searchFrom]. rewrite searchFrom_anchored_later, orb_false_r.
    reflexivity.
Qed.


Lemma test_originWhitelistToRegex (p s : string) :
  test (originWhitelistToRegex p) s = Normal (globTest p s).
Proof.
  unfold test. rewrite parse_originWhitelistToRegex, searchFrom_anchored.
  reflexivity.
Qed.

Lemma some_compiled (s : string) (l : list string) :
  some (fun x => test x s) (map originWhitelistToRegex l)
  = Normal (existsb (fun p => globTest p s) l).
Proof.
  induction l as [|p l IH]; [reflexivity|].
  cbn [map some existsb]. rewrite test_originWhitelistToRegex. cbn [cbind].
  destruct (globTest p s); [reflexivity|exact IH].
Qed.

End MatchGlob.

Lemma isEmpty_true_iff (s : string) : isEmpty s = true <-> s = EmptyString.
Proof. destruct s; split; intros H; try reflexivity; discriminate. Qed.

Lemma isEmpty_false_iff (s : string) : isEmpty s = false <-> s <> EmptyString.
Proof. destruct s; split; intros H; try reflexivity; try discriminate; congruence. Qed.

(** The whitelist check, once the origin is extracted and parsed. *)
Lemma passesWhitelist_unfold (urlOrigin : string -> completion string)
      (W : list string) (u : string) :
  _passesWhitelist urlOrigin (compileWhitelist W) u
  = if isEmpty (extractOrigin u) then Normal (Some false)
    else match urlOrigin u with
         | Throw e => Throw e
         | Normal parsed =>
             if String.eqb (extractOrigin u) parsed
             then Normal (Some (existsb (fun p => globTest p (extractOrigin u))
                                  ("about:blank" :: W)))
             else Normal None
         end.
Proof.
  unfold _passesWhitelist, compileWhitelist.
  destruct (isEmpty (extractOrigin u)); [reflexivity|].
  destruct (urlOrigin u) as [parsed|e]; [|reflexivity].
  cbn [cbind]. destruct (String.eqb (extractOrigin u) parsed); [|reflexivity].
  cbn [negb]. rewrite some_compiled. reflexivity.
Qed.

(** C2: the whitelist check answers exactly [true] if and only if the
    extracted origin is non-empty, equals the origin the URL parser reports,
    and some pattern of the whitelist extended with the [about:blank]
    sentinel matches it as a glob ([*] for any character sequence, every
    other character for itself).  An empty extracted origin yields [false],
    and an origin that differs from the parsed one yields [null].
    [compileWhitelist] prepends the sentinel and turns each pattern into an
    anchored matcher with that glob meaning.  The URL parser is a parameter;
    what is assumed of it is that the origins it reports have no line
    terminator, as serialized origins do not. *)
Theorem passesWhitelist_iff_glob
    (urlOrigin : string -> completion string)
    (Horigin : forall u o, urlOrigin u = Normal o -> noLineTerminator o = true)
    (W : list string) (u : string) :
  (_passesWhitelist urlOrigin (compileWhitelist W) u = Normal (Some true)
   <-> extractOrigin u <> EmptyString
       /\ urlOrigin u = Normal (extractOrigin u)
       /\ exists p, In p ("about:blank" :: W) /\ GlobMatches p (extractOrigin u))
  /\ (extractOrigin u = EmptyString ->
      _passesWhitelist urlOrigin (compileWhitelist W) u = Normal (Some false))
  /\ (forall parsed,
        extractOrigin u <> EmptyString ->
        urlOrigin u = Normal parsed -> parsed <> extractOrigin u ->
        _passesWhitelist urlOrigin (compileWhitelist W) u = Normal None)
  /\ compileWhitelist W = map originWhitelistToRegex ("about:blank" :: W)
  /\ (forall p s, noLineTerminator s = true ->
        (Regex.test (originWhitelistToRegex p) s = Normal true
         <-> GlobMatches p s)).
Proof.
  rewrite passesWhitelist_unfold.
  split; [|split; [|split; [|split]]].
  - destruct (isEmpty (extractOrigin u)) eqn:Hempty.
    + apply isEmpty_true_iff in Hempty. split; [discriminate|].
      intros (Hne & _). contradiction.
    + apply isEmpty_false_iff in Hempty.
      destruct (urlOrigin u) as [parsed|e] eqn:Hparsed.
      * destruct (String.eqb_spec (extractOrigin u) parsed) as [Heq|Hneq].
        -- subst parsed. pose proof (Horigin _ _ Hparsed) as Hlt. split.
           ++ intros H.
              assert (H' : existsb (fun p => globTest p (extractOrigin u))
                             ("about:blank" :: W) = true) by congruence.
              apply existsb_exists in H'.
              destruct H' as (p & Hin & Hp). repeat split; try assumption.
              exists p. split; [exact Hin|].
              apply (matchHere_glob p (extractOrigin u) true Hlt). exact Hp.
           ++ intros (_ & _ & p & Hin & Hp). do 2 f_equal.
              apply existsb_exists. exists p. split; [exact Hin|].
              apply (matchHere_glob p (extractOrigin u) true Hlt). exact Hp.
        -- split; [discriminate|]. intros (_ & H & _). congruence.
      * split; [discriminate|]. intros (_ & H & _). discriminate.
  - intros ->. reflexivity.
  - intros parsed Hne Hparsed Hdiff. apply isEmpty_false_iff in Hne.
    rewrite Hne, Hparsed.
    destruct (String.eqb_spec (extractOrigin u) parsed); [congruence|reflexivity].
  - reflexivity.
  - intros p s Hs. rewrite test_originWhitelistToRegex. split.
    + intros H. injection H as H. apply (matchHere_glob p s true Hs). exact H.
    + intros H. f_equal. apply (matchHere_glob p s true Hs). exact H.
Qed.

Lemma sample_origin_no_line_terminator (u o : string) :
  Sample.origin u = Normal o -> noLineTerminator o = true.
Proof.
  unfold Sample.origin.
  repeat match goal with
         | |- context [if ?b then _ else _] => destruct b
         end; intros H; try discriminate; injection H as <-; reflexivity.
Qed.

Lemma passesWhitelist_iff_glob_witness :
  _passesWhitelist Sample.origin (compileWhitelist defaultOriginWhitelist)
    "https://example.com/index.html" = Normal (Some true)
  /\ GlobMatches "https://*" "https://example.com".
Proof.
  pose proof (passesWhitelist_iff_glob Sample.origin
                sample_origin_no_line_terminator defaultOriginWhitelist
                "https://example.com/index.html") as (_ & _ & _ & _ & Hglob).
  split; [reflexivity|].
  apply (Hglob "https://*" "https://example.com"); reflexivity.
Defined.

(* ------------------------------------------------------------------ *)
(** ** Load-request interceptor *)

Local Open Scope handler_scope.

(** Unfolds the handler combinators so that a run computes. *)
Ltac run_handler :=
  unfold bind, ret, lift, emit, invoke, setViewState, updateViewState,
    setLastErrorEvent, setStartUrl, getStartUrl in *;
  cbn [outcome final trace app] in *.



Lemma interceptor_run {jsobject : Type} (platform : Platform jsobject)
      (whitelist : list string) (custom : option (WebViewNativeEvent -> bool))
      (nativeEvent : WebViewNativeEvent) (s : HookState) :
  createOnShouldStartLoadWithRequest platform whitelist custom nativeEvent s
  = match _passesWhitelist (urlOrigin platform) (compileWhitelist whitelist)
            (ev_url nativeEvent) with
    | Throw e => {| outcome := Throw e; final := s; trace := [] |}
    | Normal passes =>
        {| outcome := Normal tt;
           final := s;
           trace :=
             if truthy passes then
               match custom with
               | Some f =>
                   [OnShouldStartLoadWithRequest nativeEvent;
                    LoadRequest (f nativeEvent) (ev_url nativeEvent)
                      (ev_lockIdentifier nativeEvent)]
               | None =>
                   [LoadRequest true (ev_url nativeEvent)
                      (ev_lockIdentifier nativeEvent)]
               end
             else
               [LinkingCanOpenURL (ev_url nativeEvent);
                LoadRequest false (ev_url nativeEvent)
                  (ev_lockIdentifier nativeEvent)] |}
    end.
Proof.
  unfold createOnShouldStartLoadWithRequest. run_handler.
  destruct (_passesWhitelist _ _ _) as [passes|e]; [|reflexivity].
  cbn [outcome final trace].
  destruct (truthy passes); cbn; [destruct custom|]; reflexivity.
Qed.




(** C10: the whitelist check is partial.  Whenever an origin is extracted
    but the URL parser raises, [_passesWhitelist] raises instead of
    answering [true], [false] or [null]; [https://] is such a URL, its
    extracted origin being [https://] itself.  The load-request interceptor
    calls the check unguarded: it is left by the same exception, and no
    decision, not even a deny, is issued. *)
Theorem passesWhitelist_raises {jsobject : Type} (platform : Platform jsobject)
    (whitelist : list string) (custom : option (WebViewNativeEvent -> bool))
    (nativeEvent : WebViewNativeEvent) (s : HookState) (e : exn)
    (Horigin : extractOrigin (ev_url nativeEvent) <> EmptyString)
    (Hparse : urlOrigin platform (ev_url nativeEvent) = Throw e) :
  (forall compiled,
     _passesWhitelist (urlOrigin platform) compiled (ev_url nativeEvent) = Throw e)
  /\ createOnShouldStartLoadWithRequest platform whitelist custom nativeEvent s
     = {| outcome := Throw e; final := s; trace := [] |}
  /\ extractOrigin "https://" = "https://".
Proof.
  assert (Hraise : forall compiled,
             _passesWhitelist (urlOrigin platform) compiled (ev_url nativeEvent)
             = Throw e).
  { intros compiled. unfold _passesWhitelist.
    apply isEmpty_false_iff in Horigin. rewrite Horigin, Hparse. reflexivity. }
  split; [exact Hraise|split].
  - rewrite interceptor_run, Hraise. reflexivity.
  - reflexivity.
Qed.

Lemma passesWhitelist_raises_witness :
  _passesWhitelist Sample.origin (compileWhitelist defaultOriginWhitelist) "https://"
  = Throw (TypeError "Invalid URL")
  /\ trace (createOnShouldStartLoadWithRequest (Sample.platform ios)
              defaultOriginWhitelist None (Sample.navigation "https://" 7)
              (Sample.loadingState None)) = [].
Proof.
  destruct (@passesWhitelist_raises Sample.json (Sample.platform ios)
              defaultOriginWhitelist None (Sample.navigation "https://" 7)
              (Sample.loadingState None) (TypeError "Invalid URL"))
    as (Hcheck & Hrun & _).
  - cbn. discriminate.
  - reflexivity.
  - split.
    + apply (Hcheck (compileWhitelist defaultOriginWhitelist)).
    + rewrite Hrun. reflexivity.
Defined.

(* ------------------------------------------------------------------ *)
(** ** Load-finish and load-progress *)


Lemma withViewState_same (s : HookState) : withViewState (viewState s) s = s.
Proof. destruct s; reflexivity. Qed.

Section FinishProgress.

Variable jsobject : Type.
Variable platform : Platform jsobject.
Variable props : Props jsobject.


Lemma sameUrl_true_iff (u : string) (current : option string) :
  sameUrl u current = true <-> current = Some u.
Proof.
  destruct current as [v|]; cbn.
  - rewrite String.eqb_eq. split; congruence.
  - split; discriminate.
Qed.

Lemma finishContract_of_run
    (onLoadingFinish : WebViewNativeEvent -> handler unit)
    (passesWhitelist : string -> completion (option bool))
    (after : WebViewNativeEvent -> list call) :
  (forall event s,
     trace (onLoadingFinish event s)
     = listenerCalls (onLoad props) OnLoad event
       ++ listenerCalls (onLoadEnd props) OnLoadEnd (inl event)
       ++ (if passed (passesWhitelist (ev_url event)) then after event else [])
     /\ final (onLoadingFinish event s)
        = (if passed (passesWhitelist (ev_url event))
              && (negb (isAndroid (Platform_OS platform))
                  || sameUrl (ev_url event) (startUrl s))
           then withViewState IDLE s else s)) ->
  finishContract platform props onLoadingFinish passesWhitelist after.
Proof.
  intros Hrun event s. destruct (Hrun event s) as [Htrace Hfinal].
  cbv zeta. rewrite Hfinal. split; [exact Htrace|]. split; [reflexivity|].
  split; [|split].
  - intros ->. reflexivity.
  - intros -> ->. reflexivity.
  - intros -> Hstart. cbn [negb orb].
    destruct (sameUrl (ev_url event) (startUrl s)) eqn:Hsame.
    + apply sameUrl_true_iff in Hsame. contradiction.
    + rewrite andb_false_r. reflexivity.
Qed.

Lemma truthy_passed (c : option bool) : truthy c = passed (Normal c).
Proof. destruct c as [[|]|]; reflexivity. Qed.

Lemma finish_run_rev1 (event : WebViewNativeEvent) (s : HookState) :
  trace (Rev1.onLoadingFinish platform props event s)
  = listenerCalls (onLoad props) OnLoad event
    ++ listenerCalls (onLoadEnd props) OnLoadEnd (inl event)
    ++ (if passed (Rev1.passesWhitelist platform props (ev_url event))
        then listenerCalls (onNavigationStateChange props)
               OnNavigationStateChange event
        else [])
  /\ final (Rev1.onLoadingFinish platform props event s)
     = (if passed (Rev1.passesWhitelist platform props (ev_url event))
           && (negb (isAndroid (Platform_OS platform))
               || sameUrl (ev_url event) (startUrl s))
        then withViewState IDLE s else s).
Proof.
  unfold Rev1.onLoadingFinish, Rev1.updateNavigationState,
    Rev1.passesWhitelistUse.
  destruct (Rev1.passesWhitelist platform props (ev_url event)) as [[[|]|]|e];
    destruct (onLoad props), (onLoadEnd props),
      (onNavigationStateChange props);
    cbn;
    destruct (isAndroid (Platform_OS platform));
    try destruct (sameUrl (ev_url event) (startUrl s));
    split; reflexivity.
Qed.

Lemma finish_run_rev2 (event : WebViewNativeEvent) (s : HookState) :
  trace (Rev2.onLoadingFinish platform props event s)
  = listenerCalls (onLoad props) OnLoad event
    ++ listenerCalls (onLoadEnd props) OnLoadEnd (inl event)
    ++ (if passed (Rev2.passesWhitelist platform props (ev_url event))
        then [] else [])
  /\ final (Rev2.onLoadingFinish platform props event s)
     = (if passed (Rev2.passesWhitelist platform props (ev_url event))
           && (negb (isAndroid (Platform_OS platform))
               || sameUrl (ev_url event) (startUrl s))
        then withViewState IDLE s else s).
Proof.
  unfold Rev2.onLoadingFinish, Rev2.passesWhitelistUse.
  destruct (Rev2.passesWhitelist platform props (ev_url event)) as [[[|]|]|e];
    destruct (onLoad props), (onLoadEnd props);
    cbn;
    destruct (isAndroid (Platform_OS platform));
    try destruct (sameUrl (ev_url event) (startUrl s));
    split; reflexivity.
Qed.

(** The start URL is the URL of the latest load-start event. *)
Lemma start_records_url (event : WebViewNativeEvent) (s : HookState) :
  startUrl (final (Rev1.onLoadingStart props event s)) = Some (ev_url event)
  /\ startUrl (final (Rev2.onLoadingStart props event s)) = Some (ev_url event)
  /\ viewState (final (Rev1.onLoadingStart props event s)) = viewState s
  /\ viewState (final (Rev2.onLoadingStart props event s)) = viewState s.
Proof.
  unfold Rev1.onLoadingStart, Rev2.onLoadingStart, Rev1.updateNavigationState.
  run_handler.
  destruct (onLoadStart props), (onNavigationStateChange props);
    repeat split; reflexivity.
Qed.

End FinishProgress.

(* ------------------------------------------------------------------ *)
(** ** What each handler does to the hook state *)

Section Frames.

Variable jsobject : Type.
Variable platform : Platform jsobject.
Variable props : Props jsobject.


Lemma error_final_rev1 (event : WebViewErrorEvent) (s : HookState) :
  final (Rev1.onLoadingError props event s) = afterError props event s.
Proof.
  unfold Rev1.onLoadingError, afterError, isDefaultPrevented.
  destruct (onError props), (onLoadEnd props); cbn;
    destruct (defaultPrevented event); cbn;
    repeat match goal with
           | |- context [if ?b then _ else _] => destruct b; cbn
           end; reflexivity.
Qed.

Lemma error_final_rev2 (event : WebViewErrorEvent) (s : HookState) :
  final (Rev2.onLoadingError props event s) = afterError props event s.
Proof.
  unfold Rev2.onLoadingError, afterError, isDefaultPrevented.
  destruct (onError props), (onLoadEnd props); cbn;
    destruct (defaultPrevented event); cbn;
    repeat match goal with
           | |- context [if ?b then _ else _] => destruct b; cbn
           end; reflexivity.
Qed.

Lemma progress_final_rev1 (event : WebViewProgress) (s : HookState) :
  final (Rev1.onLoadingProgress platform props event s)
  = afterProgress platform true event s.
Proof.
  unfold Rev1.onLoadingProgress, afterProgress.
  destruct s as [v err start].
  destruct (onLoadProgress props); cbn;
    destruct (isAndroid (Platform_OS platform)),
      (Qeq_bool (prog_progress event) 1), v; reflexivity.
Qed.

Lemma progress_final_rev2 (event : WebViewProgress) (s : HookState) :
  final (Rev2.onLoadingProgress platform props event s)
  = afterProgress platform
      (passed (Rev2.passesWhitelist platform props (ev_url (prog_event event))))
      event s.
Proof.
  unfold Rev2.onLoadingProgress, Rev2.passesWhitelistUse, afterProgress.
  destruct s as [v err start].
  destruct (Rev2.passesWhitelist platform props (ev_url (prog_event event)))
    as [[[|]|]|e]; cbn;
    destruct (isAndroid (Platform_OS platform)),
      (Qeq_bool (prog_progress event) 1), v; reflexivity.
Qed.

Lemma message_final_rev1 (event : WebViewMessageNative) (s : HookState) :
  final (Rev1.onMessage platform props event s) = s.
Proof.
  unfold Rev1.onMessage, Rev1.passesWhitelistUse.
  destruct (Rev1.passesWhitelist platform props (ev_url (msg_event event)))
    as [[[|]|]|e]; cbn; try reflexivity.
  destruct (JSON_parse platform (msg_data event)) as [j|e]; cbn; [|reflexivity].
  destruct (validateData props j) as [j'|e]; cbn; [|reflexivity].
  destruct (JSON_stringify platform j') as [d|e]; cbn; [|reflexivity].
  destruct (validateMeta props _) as [m|e]; cbn; [|reflexivity].
  destruct (onMessageProp props); reflexivity.
Qed.

Lemma message_final_rev2 (event : WebViewMessageNative) (s : HookState) :
  final (Rev2.onMessage platform props event s) = s.
Proof.
  unfold Rev2.onMessage, Rev2.passesWhitelistUse.
  destruct (Rev2.passesWhitelist platform props (ev_url (msg_event event)))
    as [[[|]|]|e]; cbn; try reflexivity.
  destruct (JSON_parse platform (msg_data event)) as [j|e]; cbn; [|reflexivity].
  destruct (validateData props j) as [j'|e]; cbn; [|reflexivity].
  destruct (JSON_stringify platform j') as [d|e]; cbn; [|reflexivity].
  destruct (validateMeta props _) as [m|e]; cbn; [|reflexivity].
  destruct (onMessageProp props); reflexivity.
Qed.

Lemma interceptor_final (whitelist : list string)
      (custom : option (WebViewNativeEvent -> bool))
      (event : WebViewNativeEvent) (s : HookState) :
  final (createOnShouldStartLoadWithRequest platform whitelist custom event s) = s.
Proof.
  rewrite interceptor_run. destruct (_passesWhitelist _ _ _); reflexivity.
Qed.

Lemma passthrough_final (cb : listener WebViewNativeEvent)
      (c : WebViewNativeEvent -> call) (event : WebViewNativeEvent)
      (s : HookState) :
  final ((invoke cb c event ;; ret tt) s) = s.
Proof. destruct cb; reflexivity. Qed.

Lemma start_final_rev1 (event : WebViewNativeEvent) (s : HookState) :
  final (Rev1.onLoadingStart props event s)
  = {| viewState := viewState s;
       lastErrorEvent := lastErrorEvent s;
       startUrl := Some (ev_url event) |}.
Proof.
  unfold Rev1.onLoadingStart, Rev1.updateNavigationState.
  destruct (onLoadStart props), (onNavigationStateChange props); reflexivity.
Qed.

Lemma start_final_rev2 (event : WebViewNativeEvent) (s : HookState) :
  final (Rev2.onLoadingStart props event s)
  = {| viewState := viewState s;
       lastErrorEvent := lastErrorEvent s;
       startUrl := Some (ev_url event) |}.
Proof.
  unfold Rev2.onLoadingStart. destruct (onLoadStart props); reflexivity.
Qed.

Lemma reload_final (s : HookState) : final (reload s) = withViewState LOADING s.
Proof. reflexivity. Qed.


Lemma afterError_startUrl (event : WebViewErrorEvent) (s : HookState) :
  startUrl (afterError props event s) = startUrl s.
Proof. unfold afterError. destruct (isDefaultPrevented props event); reflexivity. Qed.

Lemma afterProgress_startUrl (gate : bool) (event : WebViewProgress)
      (s : HookState) :
  startUrl (afterProgress platform gate event s) = startUrl s.
Proof.
  unfold afterProgress.
  match goal with |- context [if ?b then _ else _] => destruct b end;
    reflexivity.
Qed.

Lemma startUrl_preserved1 (op : operation) (s : HookState) :
  isLoadingStart op = false ->
  startUrl (final (perform1 platform props op s)) = startUrl s.
Proof.
  destruct op; cbn [isLoadingStart perform1]; intros H; try discriminate.
  - rewrite progress_final_rev1. apply afterProgress_startUrl.
  - rewrite error_final_rev1. apply afterError_startUrl.
  - destruct (finish_run_rev1 platform props e s) as [_ ->].
    match goal with |- context [if ?b then _ else _] => destruct b end;
      reflexivity.
  - unfold Rev1.onHttpError. rewrite passthrough_final. reflexivity.
  - unfold Rev1.onRenderProcessGone. rewrite passthrough_final. reflexivity.
  - unfold Rev1.onContentProcessDidTerminate. rewrite passthrough_final.
    reflexivity.
  - rewrite message_final_rev1. reflexivity.
  - unfold Rev1.onShouldStartLoadWithRequest. rewrite interceptor_final.
    reflexivity.
  - reflexivity.
Qed.

Lemma startUrl_preserved2 (op : operation) (s : HookState) :
  isLoadingStart op = false ->
  startUrl (final (perform2 platform props op s)) = startUrl s.
Proof.
  destruct op; cbn [isLoadingStart perform2]; intros H; try discriminate;
    try reflexivity.
  - rewrite progress_final_rev2. apply afterProgress_startUrl.
  - rewrite error_final_rev2. apply afterError_startUrl.
  - destruct (finish_run_rev2 platform props e s) as [_ ->].
    match goal with |- context [if ?b then _ else _] => destruct b end;
      reflexivity.
  - rewrite message_final_rev2. reflexivity.
  - unfold Rev2.onShouldStartLoadWithRequest. rewrite interceptor_final.
    reflexivity.
Qed.

End Frames.

(* ------------------------------------------------------------------ *)
(** ** The navigation state machine and the message channel *)

Section HookClaims.

Variable jsobject : Type.
Variable platform : Platform jsobject.
Variable props : Props jsobject.

(** C5: on every load-finish event [onLoad] and then [onLoadEnd] are
    invoked, whether or not the URL passes the whitelist.  The view state
    becomes IDLE only if the finished URL passes the whitelist and, on
    Android, equals the start URL; elsewhere the whitelist pass is enough.
    When the whitelist fails the state is unchanged.  The start URL is the
    URL of the latest load-start event: that handler records it and no
    other operation writes it.  Both revisions. *)
Theorem loadingFinish_transitions :
  finishContract platform props
    (Rev1.onLoadingFinish platform props) (Rev1.passesWhitelist platform props)
    (listenerCalls (onNavigationStateChange props) OnNavigationStateChange)
  /\ finishContract platform props
       (Rev2.onLoadingFinish platform props) (Rev2.passesWhitelist platform props)
       (fun _ => [])
  /\ (forall event s,
        startUrl (final (Rev1.onLoadingStart props event s)) = Some (ev_url event)
        /\ startUrl (final (Rev2.onLoadingStart props event s)) = Some (ev_url event))
  /\ (forall op s,
        isLoadingStart op = false ->
        startUrl (final (perform1 platform props op s)) = startUrl s
        /\ startUrl (final (perform2 platform props op s)) = startUrl s).
Proof.
  split; [|split; [|split]].
  - apply finishContract_of_run. apply finish_run_rev1.
  - apply finishContract_of_run. intros event s.
    destruct (finish_run_rev2 platform props event s) as [Ht Hf].
    split; [|exact Hf]. rewrite Ht.
    destruct (passed _); reflexivity.
  - intros event s. rewrite start_final_rev1, start_final_rev2.
    split; reflexivity.
  - intros op s Hop. split.
    + apply startUrl_preserved1. exact Hop.
    + apply startUrl_preserved2. exact Hop.
Qed.






Lemma stepShape1 : stepShape props (perform1 platform props).
Proof.
  intros op s. destruct op; cbn [perform1].
  - apply start_final_rev1.
  - rewrite progress_final_rev1. unfold afterProgress.
    match goal with |- context [if ?b then _ else _] => destruct b end; auto.
  - apply error_final_rev1.
  - destruct (finish_run_rev1 platform props e s) as [_ ->].
    match goal with |- context [if ?b then _ else _] => destruct b end; auto.
  - left. apply passthrough_final.
  - left. apply passthrough_final.
  - left. apply passthrough_final.
  - left. apply message_final_rev1.
  - left. apply interceptor_final.
  - right. right. reflexivity.
Qed.

Lemma stepShape2 : stepShape props (perform2 platform props).
Proof.
  intros op s. destruct op; cbn [perform2]; try (left; reflexivity).
  - apply start_final_rev2.
  - rewrite progress_final_rev2. unfold afterProgress.
    match goal with |- context [if ?b then _ else _] => destruct b end; auto.
  - apply error_final_rev2.
  - destruct (finish_run_rev2 platform props e s) as [_ ->].
    match goal with |- context [if ?b then _ else _] => destruct b end; auto.
  - left. apply message_final_rev2.
  - left. apply interceptor_final.
  - right. right. reflexivity.
Qed.

Lemma errorContract_of_shape (perform : operation -> handler unit) :
  stepShape props perform -> errorContract props perform.
Proof.
  intros Hshape.
  assert (Hinv : forall s, reachable props perform s ->
                   viewState s = ERROR -> lastErrorEvent s <> None).
  { intros s Hreach. induction Hreach as [s Hinit|s op Hreach IH].
    - destruct Hinit as [-> | ->]; cbn;
        destruct (startInLoadingState props); discriminate.
    - specialize (Hshape op s). destruct op;
        try (destruct Hshape as [-> | [-> | ->]]; cbn;
             solve [exact IH | discriminate]).
      + rewrite Hshape. exact IH.
      + rewrite Hshape. unfold afterError.
        destruct (isDefaultPrevented props e); [exact IH|].
        cbn. discriminate. }
  split; [|split].
  - intros s Hreach. split; [apply Hinv; exact Hreach|].
    unfold otherView. destruct (viewState s) eqn:Hv; eauto.
    destruct (lastErrorEvent s) eqn:He; eauto.
    exfalso. apply (Hinv s Hreach Hv). exact He.
  - intros event s. cbv zeta. rewrite (Hshape (LoadingError event) s).
    unfold afterError. destruct (isDefaultPrevented props event); auto.
  - intros op s Hop. specialize (Hshape op s).
    destruct op; try discriminate;
      try (destruct Hshape as [-> | [-> | ->]]; cbn;
           solve [auto | discriminate]).
    rewrite Hshape. auto.
Qed.

(** C7: in every state the component reaches, a view state of ERROR comes
    with a stored error record, so the render function's [invariant] never
    fails.  A load-error event that is not default-prevented sets ERROR and
    stores the event's record (domain, code, description) in the same step;
    a default-prevented one changes neither the state nor the stored
    record; no other operation enters ERROR.  Both revisions. *)
Theorem error_state_has_record :
  errorContract props (perform1 platform props)
  /\ errorContract props (perform2 platform props).
Proof.
  split; apply errorContract_of_shape; [apply stepShape1|apply stepShape2].
Qed.

End HookClaims.

(* ------------------------------------------------------------------ *)
(** ** Message channel *)

Section MessageClaims.

Variable jsobject : Type.
Variable platform : Platform jsobject.
Variable props : Props jsobject.




Lemma message_run_rev1 (event : WebViewMessageNative) (s : HookState) :
  Rev1.onMessage platform props event s
  = messageRun platform props
    (Rev1.passesWhitelist platform props (ev_url (msg_event event)))
      event s.
Proof.
  unfold Rev1.onMessage, Rev1.passesWhitelistUse, messageRun, Rev2.extractMeta.
  destruct (Rev1.passesWhitelist platform props (ev_url (msg_event event)))
    as [[[|]|]|e]; cbn; try reflexivity.
  destruct (JSON_parse platform (msg_data event)) as [j|e]; cbn; [|reflexivity].
  destruct (validateData props j) as [j'|e]; cbn; [|reflexivity].
  destruct (JSON_stringify platform j') as [d|e]; cbn; [|reflexivity].
  destruct (validateMeta props _) as [m|e]; cbn; [|reflexivity].
  destruct (onMessageProp props); reflexivity.
Qed.

Lemma message_run_rev2 (event : WebViewMessageNative) (s : HookState) :
  Rev2.onMessage platform props event s
  = messageRun platform props
    (Rev2.passesWhitelist platform props (ev_url (msg_event event)))
      event s.
Proof.
  unfold Rev2.onMessage, Rev2.passesWhitelistUse, messageRun.
  destruct (Rev2.passesWhitelist platform props (ev_url (msg_event event)))
    as [[[|]|]|e]; cbn; try reflexivity.
  destruct (JSON_parse platform (msg_data event)) as [j|e]; cbn; [|reflexivity].
  destruct (validateData props j) as [j'|e]; cbn; [|reflexivity].
  destruct (JSON_stringify platform j') as [d|e]; cbn; [|reflexivity].
  destruct (validateMeta props _) as [m|e]; cbn; [|reflexivity].
  destruct (onMessageProp props); reflexivity.
Qed.

Lemma messageRun_final (pass : completion (option bool))
      (event : WebViewMessageNative) (s : HookState) :
  final (messageRun platform props pass event s) = s.
Proof.
  unfold messageRun.
  repeat match goal with
         | |- context [match ?c with _ => _ end] => destruct c
         end; reflexivity.
Qed.

Lemma passed_true (c : completion (option bool)) :
  passed c = true -> c = Normal (Some true).
Proof. destruct c as [[[|]|]|e]; intros H; try discriminate; reflexivity. Qed.

Lemma messageContract_of_run
    (onMessage : WebViewMessageNative -> handler unit)
    (passesWhitelist : string -> completion (option bool)) :
  (forall event s,
     onMessage event s
     = messageRun platform props (passesWhitelist (ev_url (msg_event event))) event s) ->
  messageContract platform props onMessage passesWhitelist.
Proof.
  intros Hrun event s. cbv zeta.
  split; [|split; [|split; [|split; [|split]]]].
  - rewrite Hrun.
    destruct (passesWhitelist (ev_url (msg_event event))) as [[[|]|]|e];
      intros H; try discriminate; reflexivity.
  - intros parsed e Hpass Hparse Hdata. apply passed_true in Hpass.
    rewrite Hrun, Hpass. unfold messageRun. rewrite Hparse, Hdata.
    split; reflexivity.
  - intros parsed validated data e Hpass Hparse Hdata Hstr Hmeta.
    apply passed_true in Hpass.
    rewrite Hrun, Hpass. unfold messageRun.
    rewrite Hparse, Hdata, Hstr, Hmeta. split; reflexivity.
  - rewrite Hrun. apply messageRun_final.
  - intros next. rewrite (Hrun event s), messageRun_final. reflexivity.
  - intros parsed validated data validMeta Hpass Hparse Hdata Hstr Hmeta.
    apply passed_true in Hpass.
    rewrite Hrun, Hpass. unfold messageRun.
    rewrite Hparse, Hdata, Hstr, Hmeta. split; reflexivity.
Qed.

(** C8: a message whose URL does not pass the whitelist exactly never
    reaches the host's [onMessage]; neither does one whose data or metadata
    validator raises, and then no state is altered and later messages are
    handled as if it had not arrived; otherwise the host receives the
    validated metadata together with the re-serialized validated data.
    Both revisions. *)
Theorem message_delivery :
  messageContract platform props (Rev1.onMessage platform props)
    (Rev1.passesWhitelist platform props)
  /\ messageContract platform props (Rev2.onMessage platform props)
       (Rev2.passesWhitelist platform props).
Proof.
  split; apply messageContract_of_run; intros event s.
  - apply message_run_rev1.
  - apply message_run_rev2.
Qed.

(** C9, amended: a message whose URL passes the whitelist and whose
    payload [JSON.parse] rejects is dropped without any call to the host
    and without a change of state, and the parse error is not caught: the
    handler is left by that exception.  Both revisions. *)
Theorem malformed_payload_raises
    (event : WebViewMessageNative) (s : HookState) (e : exn)
    (Hparse : JSON_parse platform (msg_data event) = Throw e) :
  (passed (Rev1.passesWhitelist platform props (ev_url (msg_event event))) = true ->
   Rev1.onMessage platform props event s
   = {| outcome := Throw e; final := s; trace := [] |})
  /\ (passed (Rev2.passesWhitelist platform props (ev_url (msg_event event))) = true ->
      Rev2.onMessage platform props event s
      = {| outcome := Throw e; final := s; trace := [] |}).
Proof.
  split; intros Hpass; apply passed_true in Hpass.
  - rewrite message_run_rev1, Hpass. unfold messageRun. rewrite Hparse.
    reflexivity.
  - rewrite message_run_rev2, Hpass. unfold messageRun. rewrite Hparse.
    reflexivity.
Qed.

End MessageClaims.

(* ------------------------------------------------------------------ *)
(** ** The claims on the sample host *)


(** C9, as stated, fails: the payload [{] of a whitelisted page is not
    dropped silently, the handler raises the SyntaxError of [JSON.parse]. *)
Lemma malformed_payload_counterexample :
  passed (Rev2.passesWhitelist (Sample.platform ios) Sample.props
            "https://example.com/") = true
  /\ Sample.parse "{" = Throw (SyntaxError "Unexpected token")
  /\ ~ failsClosed
         (Rev2.onMessage (Sample.platform ios) Sample.props
            (Sample.message "https://example.com/" "{") (Sample.loadingState None))
         (Sample.loadingState None)
  /\ ~ failsClosed
         (Rev1.onMessage (Sample.platform ios) Sample.props
            (Sample.message "https://example.com/" "{") (Sample.loadingState None))
         (Sample.loadingState None).
Proof.
  repeat split; intros (_ & (v & Hv) & _); cbv in Hv; discriminate.
Qed.

Lemma malformed_payload_raises_witness :
  Rev2.onMessage (Sample.platform ios) Sample.props
    (Sample.message "https://example.com/" "{") (Sample.loadingState None)
  = {| outcome := Throw (SyntaxError "Unexpected token");
       final := Sample.loadingState None;
       trace := [] |}.
Proof.
  apply (@malformed_payload_raises Sample.json (Sample.platform ios) Sample.props
           (Sample.message "https://example.com/" "{") (Sample.loadingState None)
           (SyntaxError "Unexpected token")); reflexivity.
Defined.

Lemma message_delivery_witness :
  trace (Rev2.onMessage (Sample.platform ios) Sample.props
           (Sample.message "https://example.com/" "{}") (Sample.loadingState None))
  = [OnMessage {| message_meta := Sample.navigation "https://example.com/" 0;
                  message_data := "{}" |}]
  /\ trace (Rev1.onMessage (Sample.platform ios) Sample.strictProps
              (Sample.message "https://example.com/" "{}") (Sample.loadingState None))
     = [].
Proof.
  split.
  - apply (proj2 (@message_delivery Sample.json (Sample.platform ios) Sample.props)
             (Sample.message "https://example.com/" "{}") (Sample.loadingState None)
           : _ /\ _ /\ _ /\ _ /\ _ /\ _)
      with (parsed := Sample.JEmptyObject) (validated := Sample.JEmptyObject);
      reflexivity.
  - apply (proj1 (proj2 (proj1 (@message_delivery Sample.json (Sample.platform ios)
                                  Sample.strictProps)
                           (Sample.message "https://example.com/" "{}")
                           (Sample.loadingState None)
                         : _ /\ _ /\ _ /\ _ /\ _ /\ _)))
      with (parsed := Sample.JEmptyObject) (e := HostError "rejected");
      reflexivity.
Defined.

Lemma loadingFinish_transitions_witness :
  final (Rev2.onLoadingFinish (Sample.platform android) Sample.props
           (Sample.navigation "https://example.com/" 0)
           (Sample.loadingState (Some "https://example.com/start")))
  = Sample.loadingState (Some "https://example.com/start")
  /\ viewState (final (Rev2.onLoadingFinish (Sample.platform ios) Sample.props
                         (Sample.navigation "https://example.com/" 0)
                         (Sample.loadingState (Some "https://example.com/start"))))
     = IDLE.
Proof.
  split.
  - apply (proj1 (proj2 (@loadingFinish_transitions Sample.json
                           (Sample.platform android) Sample.props))
             (Sample.navigation "https://example.com/" 0)
             (Sample.loadingState (Some "https://example.com/start"))
           : _ /\ _ /\ _ /\ _ /\ _).
    + reflexivity.
    + cbn. discriminate.
  - apply (proj1 (proj2 (@loadingFinish_transitions Sample.json
                           (Sample.platform ios) Sample.props))
             (Sample.navigation "https://example.com/" 0)
             (Sample.loadingState (Some "https://example.com/start"))
           : _ /\ _ /\ _ /\ _ /\ _); reflexivity.
Defined.


Lemma error_state_has_record_witness :
  let s := final (Rev2.onLoadingError Sample.props
                    (Sample.errorEvent "https://example.com/" false)
                    (Sample.loadingState None)) in
  viewState s = ERROR
  /\ lastErrorEvent s
     = Some (errorNativeEvent (Sample.errorEvent "https://example.com/" false))
  /\ final (Rev2.onLoadingError Sample.props
              (Sample.errorEvent "https://example.com/" true)
              (Sample.loadingState None))
     = Sample.loadingState None.
Proof.
  pose proof (proj2 (@error_state_has_record Sample.json
                       (Sample.platform ios) Sample.props)) as (_ & Hstep & _).
  split; [|split].
  - exact (proj1 (Hstep (Sample.errorEvent "https://example.com/" false)
                    (Sample.loadingState None))).
  - exact (proj2 (Hstep (Sample.errorEvent "https://example.com/" false)
                    (Sample.loadingState None))).
  - exact (Hstep (Sample.errorEvent "https://example.com/" true)
             (Sample.loadingState None)).
Defined.

(* ------------------------------------------------------------------ *)
(** ** Version gate *)

Section SplitFacts.

Lemma splitFrom_nonempty (sep : string) (s : string) : forall skip,
  splitFrom sep skip s <> [].
Proof.
  induction s as [|c s IH]; intros skip; cbn [splitFrom]; [discriminate|].
  destruct skip as [|k]; [|apply IH].
  destruct (prefix sep (String c s)); [discriminate|].
  destruct (splitFrom sep 0 s); discriminate.
Qed.

Lemma splitFrom_length_le (sep : string) (s : string) : forall skip x,
  In x (splitFrom sep skip s) -> String.length x <= String.length s.
Proof.
  induction s as [|c s IH]; intros skip x Hin; cbn [splitFrom] in Hin.
  - destruct Hin as [<-|[]]. cbn. lia.
  - cbn [String.length]. destruct skip as [|k].
    + destruct (prefix sep (String c s)).
      * destruct Hin as [<-|Hin]; [cbn; lia|].
        apply IH in Hin. lia.
      * destruct (splitFrom sep 0 s) as [|p ps] eqn:Hsplit.
        -- destruct Hin as [<-|[]]. cbn. lia.
        -- destruct Hin as [<-|Hin].
           ++ cbn [String.length].
              assert (String.length p <= String.length s)
                by (apply (IH 0); rewrite Hsplit; left; reflexivity).
              lia.
           ++ assert (String.length x <= String.length s)
                by (apply (IH 0); rewrite Hsplit; right; exact Hin).
              lia.
    + apply IH in Hin. lia.
Qed.

Lemma prefix_of_empty (sep : string) :
  prefix sep EmptyString = true -> sep = EmptyString.
Proof. destruct sep; [reflexivity|discriminate]. Qed.

(** Where the separator occurs, every piece is shorter than the whole. *)
Lemma split_length_lt (sep s x : string) :
  sep <> EmptyString -> includes sep s = true ->
  In x (split sep s) -> String.length x < String.length s.
Proof.
  intros Hsep. unfold split. revert x.
  induction s as [|c s IH]; intros x Hinc Hin.
  - cbn in Hinc. rewrite orb_false_r in Hinc.
    apply prefix_of_empty in Hinc. contradiction.
  - cbn [includes] in Hinc. cbn [splitFrom] in Hin. cbn [String.length].
    destruct (prefix sep (String c s)) eqn:Hpre.
    + destruct Hin as [<-|Hin]; [cbn; lia|].
      apply splitFrom_length_le in Hin. lia.
    + cbn [orb] in Hinc.
      destruct (splitFrom sep 0 s) as [|p ps] eqn:Hsplit.
      * exfalso. apply (splitFrom_nonempty sep s 0). exact Hsplit.
      * destruct Hin as [<-|Hin].
        -- cbn [String.length].
           assert (String.length p < String.length s)
             by (apply IH; [exact Hinc|left; reflexivity]).
           lia.
        -- assert (String.length x < String.length s)
             by (apply IH; [exact Hinc|right; exact Hin]).
           lia.
Qed.

(** Where the separator occurs, there are at least two pieces. *)
Lemma split_two_pieces (sep s : string) :
  sep <> EmptyString -> includes sep s = true ->
  exists p q rest, split sep s = p :: q :: rest.
Proof.
  intros Hsep. unfold split.
  induction s as [|c s IH]; intros Hinc.
  - cbn in Hinc. rewrite orb_false_r in Hinc.
    apply prefix_of_empty in Hinc. contradiction.
  - cbn [includes] in Hinc. cbn [splitFrom].
    destruct (prefix sep (String c s)) eqn:Hpre.
    + destruct (splitFrom sep (String.length sep - 1) s) as [|q rest] eqn:Hsplit.
      * exfalso. apply (splitFrom_nonempty sep s _ Hsplit).
      * eauto.
    + cbn [orb] in Hinc. destruct (IH Hinc) as (p & q & rest & ->). eauto.
Qed.

End SplitFacts.

Section Termination.

Lemma someCut_ext {A : Type} (f g : A -> option bool) (l : list A) :
  (forall x, In x l -> f x = g x) -> someCut f l = someCut g l.
Proof.
  induction l as [|x l IH]; intros H; [reflexivity|].
  cbn [someCut]. rewrite (H x) by (left; reflexivity).
  destruct (g x) as [[|]|]; try reflexivity.
  apply IH. intros y Hy. apply H. right. exact Hy.
Qed.

(** [someCut] over a callback that always returns is [some]. *)
Lemma someCut_returns {A : Type} (f : A -> option bool) (l : list A) :
  (forall x, In x l -> exists b, f x = Some b) ->
  exists b, someCut f l = Some b
            /\ (b = true <-> exists x, In x l /\ f x = Some true).
Proof.
  induction l as [|x l IH]; intros H.
  - exists false. split; [reflexivity|]. split; [discriminate|].
    intros (x & [] & _).
  - cbn [someCut]. destruct (H x (or_introl eq_refl)) as ([|] & Hx); rewrite Hx.
    + exists true. split; [reflexivity|]. split; [|reflexivity].
      intros _. exists x. split; [left; reflexivity|exact Hx].
    + destruct IH as (b & Hb & Hiff).
      { intros y Hy. apply H. right. exact Hy. }
      exists b. split; [exact Hb|]. rewrite Hiff. split.
      * intros (y & Hy & Hfy). exists y. split; [right; exact Hy|exact Hfy].
      * intros (y & [<-|Hy] & Hfy); [congruence|]. exists y. split; assumption.
Qed.

Lemma size_nth_error_lt (sep minimum : string) (i : nat) :
  sep <> EmptyString -> includes sep minimum = true ->
  size (nth_error (split sep minimum) i) < String.length minimum.
Proof.
  intros Hsep Hinc.
  destruct (nth_error (split sep minimum) i) as [x|] eqn:Hnth; cbn [size].
  - apply nth_error_In in Hnth.
    apply split_length_lt with (sep := sep); assumption.
  - destruct minimum; [|cbn; lia].
    cbn in Hinc. rewrite orb_false_r in Hinc.
    apply prefix_of_empty in Hinc. contradiction.
Qed.

Lemma comma_nonempty : ", " <> EmptyString.
Proof. discriminate. Qed.

Lemma bound_nonempty : " <" <> EmptyString.
Proof. discriminate. Qed.

(** The body only calls [self] on arguments of smaller total length. *)
Lemma versionPassesBody_ext
      (self1 self2 : option string -> option string -> option bool)
      (version minimum : option string) :
  (forall v m, size v + size m < size version + size minimum ->
               self1 v m = self2 v m) ->
  versionPassesBody self1 version minimum
  = versionPassesBody self2 version minimum.
Proof.
  intros H. unfold versionPassesBody.
  destruct version as [version|]; [|reflexivity].
  destruct minimum as [minimum|]; [|reflexivity].
  destruct (isEmpty version || isEmpty minimum); [reflexivity|].
  cbn [size] in H.
  destruct (includes ", " minimum) eqn:Hcomma.
  - cbv zeta. destruct (negb _); [reflexivity|].
    apply someCut_ext. intros x Hx. apply H. cbn [size].
    assert (String.length x < String.length minimum)
      by (apply split_length_lt with (sep := ", ");
          [exact comma_nonempty|exact Hcomma|exact Hx]).
    lia.
  - destruct (includes " <" minimum) eqn:Hbound; [|reflexivity].
    cbv zeta. destruct (0 <? _)%nat; [reflexivity|].
    assert (H0 : size (nth_error (split " <" minimum) 0) < String.length minimum)
      by (apply size_nth_error_lt; [exact bound_nonempty|exact Hbound]).
    assert (H1 : size (nth_error (split " <" minimum) 1) < String.length minimum)
      by (apply size_nth_error_lt; [exact bound_nonempty|exact Hbound]).
    rewrite (H (Some version) (nth_error (split " <" minimum) 0))
      by (cbn [size]; lia).
    rewrite (H (Some version) (nth_error (split " <" minimum) 1))
      by (cbn [size]; lia).
    rewrite (H (nth_error (split " <" minimum) 1) (Some version))
      by (cbn [size]; lia).
    reflexivity.
Qed.

Lemma versionPassesBody_returns
      (self : option string -> option string -> option bool)
      (version minimum : option string) :
  (forall v m, size v + size m < size version + size minimum ->
               exists b, self v m = Some b) ->
  exists b, versionPassesBody self version minimum = Some b.
Proof.
  intros H. unfold versionPassesBody.
  destruct version as [version|]; [|eauto].
  destruct minimum as [minimum|]; [|eauto].
  destruct (isEmpty version || isEmpty minimum); [eauto|].
  cbn [size] in H.
  destruct (includes ", " minimum) eqn:Hcomma.
  - cbv zeta. destruct (negb _); [eauto|].
    destruct (someCut_returns (fun x => self (Some version) (Some x))
                (split ", " minimum)) as (b & Hb & _); [|eauto].
    intros x Hx. apply H. cbn [size].
    assert (String.length x < String.length minimum)
      by (apply split_length_lt with (sep := ", ");
          [exact comma_nonempty|exact Hcomma|exact Hx]).
    lia.
  - destruct (includes " <" minimum) eqn:Hbound.
    + cbv zeta. destruct (0 <? _)%nat; [eauto|].
      assert (H0 : size (nth_error (split " <" minimum) 0) < String.length minimum)
        by (apply size_nth_error_lt; [exact bound_nonempty|exact Hbound]).
      assert (H1 : size (nth_error (split " <" minimum) 1) < String.length minimum)
        by (apply size_nth_error_lt; [exact bound_nonempty|exact Hbound]).
      destruct (H (Some version) (nth_error (split " <" minimum) 0))
        as ([|] & ->); [cbn [size]; lia| |cbn; eauto].
      destruct (H (Some version) (nth_error (split " <" minimum) 1))
        as ([|] & ->); [cbn [size]; lia|cbn; eauto|].
      destruct (H (nth_error (split " <" minimum) 1) (Some version))
        as (c & ->); [cbn [size]; lia|cbn; eauto].
    + destruct (negb _ || negb _); eauto.
Qed.

(** Enough depth gives a result. *)
Lemma versionPassesWithin_returns (fuel : nat) : forall version minimum,
  size version + size minimum < fuel ->
  exists b, versionPassesWithin fuel version minimum = Some b.
Proof.
  induction fuel as [|fuel IH]; intros version minimum Hlt; [lia|].
  cbn [versionPassesWithin]. apply versionPassesBody_returns.
  intros v m Hsmaller. apply IH. lia.
Qed.

(** Beyond that depth the result no longer depends on it. *)
Lemma versionPassesWithin_stable (fuel1 : nat) : forall fuel2 version minimum,
  size version + size minimum < fuel1 ->
  size version + size minimum < fuel2 ->
  versionPassesWithin fuel1 version minimum
  = versionPassesWithin fuel2 version minimum.
Proof.
  induction fuel1 as [|fuel1 IH]; intros fuel2 version minimum H1 H2; [lia|].
  destruct fuel2 as [|fuel2]; [lia|].
  cbn [versionPassesWithin]. apply versionPassesBody_ext.
  intros v m Hsmaller. apply IH; lia.
Qed.

(** [versionPasses] always returns. *)
Lemma versionPasses_returns (version minimum : option string) :
  exists b, versionPasses version minimum = Some b.
Proof. apply versionPassesWithin_returns. lia. Qed.

(** [versionPasses] satisfies the equation of the source function. *)
Lemma versionPasses_unfold (version minimum : option string) :
  versionPasses version minimum
  = versionPassesBody versionPasses version minimum.
Proof.
  unfold versionPasses at 1. cbn [versionPassesWithin].
  apply versionPassesBody_ext. intros v m Hsmaller.
  unfold versionPasses. apply versionPassesWithin_stable; lia.
Qed.

End Termination.

Section DottedVersions.


Lemma prefix_hasChar (c : ascii) (sep : string) : forall s,
  prefix sep s = true -> hasChar c sep = true -> hasChar c s = true.
Proof.
  induction sep as [|a sep IH]; intros s Hpre Hc; [discriminate|].
  destruct s as [|b s]; [discriminate|].
  cbn [prefix] in Hpre. destruct (ascii_dec a b) as [<-|]; [|discriminate].
  cbn [hasChar] in *. apply orb_true_iff in Hc. apply orb_true_iff.
  destruct Hc as [Hc|Hc]; [left; exact Hc|right; apply IH; assumption].
Qed.

Lemma includes_hasChar (c : ascii) (sep s : string) :
  includes sep s = true -> hasChar c sep = true -> hasChar c s = true.
Proof.
  intros Hinc Hc. induction s as [|d s IH].
  - cbn in Hinc. rewrite orb_false_r in Hinc.
    apply (@prefix_hasChar c sep EmptyString Hinc Hc).
  - cbn [includes] in Hinc. apply orb_true_iff in Hinc.
    destruct Hinc as [Hpre|Hinc].
    + apply (@prefix_hasChar c sep _ Hpre Hc).
    + cbn [hasChar]. rewrite (IH Hinc). apply orb_true_r.
Qed.

Lemma dotted_no_space (s : string) : forall inNumber,
  versionRegexFrom inNumber s = true -> hasChar " " s = false.
Proof.
  induction s as [|c s IH]; intros inNumber H; [reflexivity|].
  cbn [versionRegexFrom] in H. cbn [hasChar].
  destruct (Ascii.eqb_spec " " c) as [<-|_]; [discriminate|].
  cbn [orb]. destruct (isDigit c); [apply (IH true H)|].
  destruct (Ascii.eqb c "." && inNumber); [apply (IH false H)|discriminate].
Qed.

Lemma dotted_is_plain (s : string) :
  versionRegex_test s = true ->
  isEmpty s = false /\ includes ", " s = false /\ includes " <" s = false.
Proof.
  intros H. pose proof (@dotted_no_space s false H) as Hspace.
  split; [destruct s; [discriminate|reflexivity]|].
  split.
  - destruct (includes ", " s) eqn:Hinc; [|reflexivity].
    rewrite (@includes_hasChar " " ", " s Hinc eq_refl) in Hspace. discriminate.
  - destruct (includes " <" s) eqn:Hinc; [|reflexivity].
    rewrite (@includes_hasChar " " " <" s Hinc eq_refl) in Hspace. discriminate.
Qed.


Lemma versionPasses_dotted (version minimum : string) :
  versionRegex_test minimum = true ->
  versionPasses (Some version) (Some minimum)
  = Some (negb (isEmpty version) && versionRegex_test version
          && compareVersions version minimum).
Proof.
  intros Hmin. destruct (@dotted_is_plain minimum Hmin) as (He & Hc & Hb).
  rewrite versionPasses_unfold. unfold versionPassesBody.
  rewrite He, Hc, Hb, Hmin, orb_false_r.
  destruct (isEmpty version); [reflexivity|].
  destruct (versionRegex_test version); reflexivity.
Qed.

(** The comparison is total: of two versions, one is at least the other. *)
Lemma compareFrom_total (xs ys : list N) (steps : nat) : forall i,
  compareFrom xs ys i steps = false -> compareFrom ys xs i steps = true.
Proof.
  induction steps as [|steps IH]; intros i H; [discriminate|].
  cbn [compareFrom] in *.
  destruct (N.ltb_spec (nth i ys 0%N) (nth i xs 0%N)); [discriminate|].
  destruct (N.ltb_spec (nth i xs 0%N) (nth i ys 0%N)); [reflexivity|].
  apply IH. exact H.
Qed.

Lemma compareVersions_total (v w : string) :
  compareVersions v w = false -> compareVersions w v = true.
Proof.
  unfold compareVersions. cbv zeta. intros H.
  rewrite Nat.max_comm. apply compareFrom_total. exact H.
Qed.

End DottedVersions.

Lemma andCut_all (a b c : bool) :
  andCut (Some a) (andCut (notCut (Some b)) (Some c)) = Some (a && negb b && c).
Proof. destruct a, b; reflexivity. Qed.

Lemma versionPasses_empty_version (minimum : option string) :
  versionPasses (Some EmptyString) minimum = Some false.
Proof. rewrite versionPasses_unfold. destruct minimum; reflexivity. Qed.

Lemma includes_nonempty (sep s : string) :
  sep <> EmptyString -> includes sep s = true -> isEmpty s = false.
Proof.
  intros Hsep Hinc. destruct s; [|reflexivity].
  cbn in Hinc. rewrite orb_false_r in Hinc.
  apply prefix_of_empty in Hinc. contradiction.
Qed.

(** C3: for a minimum that is a single range (it contains [ <] and no
    comma separator), splitting on [ <] gives [min], [max] and a remainder.
    If the remainder is not empty [versionPasses] answers [false].  Otherwise the
    three calls on [(v, min)], [(v, max)] and [(max, v)] return and it
    answers [true] exactly when the first holds, the second does not and the
    third holds.  The third only checks the range: for dotted [min] and
    [max] it follows from the other two, so the answer is "satisfies [min]
    and does not satisfy [max]". *)
Theorem versionPasses_range (version minimum : string)
    (Hsingle : includes ", " minimum = false)
    (Hrange : includes " <" minimum = true) :
  exists min max rest,
    split " <" minimum = min :: max :: rest
    /\ (rest <> [] -> versionPasses (Some version) (Some minimum) = Some false)
    /\ (rest = [] ->
        exists a b c,
          versionPasses (Some version) (Some min) = Some a
          /\ versionPasses (Some version) (Some max) = Some b
          /\ versionPasses (Some max) (Some version) = Some c
          /\ versionPasses (Some version) (Some minimum)
             = Some (a && negb b && c)
          /\ (versionRegex_test min = true -> versionRegex_test max = true ->
              a && negb b && c = a && negb b)).
Proof.
  destruct (@split_two_pieces " <" minimum bound_nonempty Hrange) as (min & max & rest & Hsplit).
  exists min, max, rest. split; [exact Hsplit|].
  pose proof (@includes_nonempty " <" minimum bound_nonempty Hrange) as Hmin.
  split.
  - intros Hrest. rewrite versionPasses_unfold. unfold versionPassesBody.
    rewrite Hmin, Hsingle, Hrange, Hsplit. cbn [skipn].
    destruct (isEmpty version); [reflexivity|]. cbn [orb].
    destruct rest; [contradiction|reflexivity].
  - intros ->.
    destruct (versionPasses_returns (Some version) (Some min)) as (a & Ha).
    destruct (versionPasses_returns (Some version) (Some max)) as (b & Hb).
    destruct (versionPasses_returns (Some max) (Some version)) as (c & Hc).
    exists a, b, c. repeat (split; [assumption|]). split.
    + rewrite (versionPasses_unfold (Some version) (Some minimum)).
      unfold versionPassesBody. rewrite Hmin, Hsingle, Hrange, Hsplit.
      destruct version as [|ch version].
      * rewrite versionPasses_empty_version in Ha.
        injection Ha as <-. reflexivity.
      * cbn [isEmpty orb nth_error skipn List.length Nat.ltb Nat.leb].
        rewrite Ha, Hb, Hc. apply andCut_all.
    + intros Hdmin Hdmax.
      rewrite (@versionPasses_dotted version min Hdmin) in Ha.
      rewrite (@versionPasses_dotted version max Hdmax) in Hb.
      destruct a; [|reflexivity]. destruct b; [reflexivity|]. cbn [andb negb].
      injection Ha as Ha. injection Hb as Hb.
      apply andb_true_iff in Ha. destruct Ha as [Ha _].
      apply andb_true_iff in Ha. destruct Ha as [Hne Hdv].
      rewrite Hne, Hdv in Hb. cbn [andb] in Hb.
      apply compareVersions_total in Hb.
      rewrite (@versionPasses_dotted max version Hdv) in Hc.
      destruct (@dotted_is_plain max Hdmax) as (Hemax & _).
      rewrite Hemax, Hdmax, Hb in Hc. cbn in Hc. congruence.
Qed.

Lemma versionPasses_range_witness :
  versionPasses (Some "12.9") (Some "12.5.6 <13") = Some true
  /\ versionPasses (Some "13.0") (Some "12.5.6 <13") = Some false
  /\ versionPasses (Some "1.2") (Some "1 <2 <3") = Some false.
Proof.
  destruct (@versionPasses_range "12.9" "12.5.6 <13" eq_refl eq_refl)
    as (min & max & rest & Hsplit & _ & Hok).
  injection Hsplit as <- <- <-.
  destruct (Hok eq_refl) as (a & b & c & Ha & Hb & Hc & Hres & _).
  split; [|split; reflexivity].
  rewrite Hres. vm_compute in Ha, Hb, Hc.
  injection Ha as <-. injection Hb as <-. injection Hc as <-. reflexivity.
Defined.



Example versionPasses_hard_minimum :
  map (fun v => versionPasses (Some v) (Some hardMinimumIOSVersion))
    ["12.5.5"; "12.5.6"; "12.9"; "13"; "13.6.1"; "14.8"; "14.8.1"; "15.7"; "15.7.1"; "16.0"]
  = [Some false; Some true; Some true; Some false; Some true; Some false;
     Some true; Some false; Some true; Some true].
Proof. vm_compute. reflexivity. Qed.

Example versionPasses_equal :
  versionPasses (Some "1.2") (Some "1.2.0") = Some true
  /\ versionPasses (Some "1.10") (Some "1.9") = Some true
  /\ versionPasses (Some "1.2") (Some "1.2.1") = Some false
  /\ versionPasses None (Some "1") = Some false
  /\ versionPasses (Some "1.x") (Some "1") = Some false.
Proof. repeat split. Qed.

(* ------------------------------------------------------------------ *)
(** ** More on the origin whitelist matcher *)

Section OriginFacts.

Lemma prefix_append (s t : string) : prefix s (s ++ t) = true.
Proof.
  induction s as [|c s IH]; [destruct t; reflexivity|].
  cbn [append prefix]. destruct (ascii_dec c c); [exact IH|contradiction].
Qed.

Lemma takeWhile_dropWhile (p : ascii -> bool) (s : string) :
  s = (takeWhile p s ++ dropWhile p s)%string.
Proof.
  induction s as [|c s IH]; [reflexivity|].
  cbn [takeWhile dropWhile]. destruct (p c); [|reflexivity].
  cbn [append]. f_equal. exact IH.
Qed.

Lemma takeWhile_all (p : ascii -> bool) (s : string) :
  allChars p (takeWhile p s) = true.
Proof.
  induction s as [|c s IH]; [reflexivity|].
  cbn [takeWhile]. destruct (p c) eqn:Hc; [|reflexivity].
  cbn [allChars]. rewrite Hc. exact IH.
Qed.

Lemma takeWhile_of_all (p : ascii -> bool) (s : string) :
  allChars p s = true -> takeWhile p s = s.
Proof.
  induction s as [|c s IH]; intros H; [reflexivity|].
  cbn [allChars] in H. apply andb_true_iff in H. destruct H as [Hc Hs].
  cbn [takeWhile]. rewrite Hc, (IH Hs). reflexivity.
Qed.

(** A run of accepted characters followed by a refused one. *)
Lemma takeWhile_stop (p : ascii -> bool) (s : string) (d : ascii) (t : string) :
  allChars p s = true -> p d = false ->
  takeWhile p (s ++ String d t) = s /\ dropWhile p (s ++ String d t) = String d t.
Proof.
  intros Hs Hd. induction s as [|c s IH].
  - cbn. rewrite Hd. split; reflexivity.
  - cbn [allChars] in Hs. apply andb_true_iff in Hs. destruct Hs as [Hc Hs].
    cbn [append takeWhile dropWhile]. rewrite Hc.
    destruct (IH Hs) as [-> ->]. split; reflexivity.
Qed.

Lemma originTail_cases (c : ascii) (scheme after : string) :
  match after with
  | String "/" (String "/" after') =>
      String c (scheme ++ "://" ++ takeWhile notSlash after')
  | _ => String c (scheme ++ ":" ++ takeWhile notSlash after)
  end
  = String c (scheme ++ ":" ++ originTail after).
Proof.
  unfold originTail.
  destruct after as [|a1 after1]; [reflexivity|].
  destruct after1 as [|a2 after2].
  - destruct a1 as [[] [] [] [] [] [] [] []]; reflexivity.
  - destruct a1 as [[] [] [] [] [] [] [] []]; try reflexivity.
    destruct a2 as [[] [] [] [] [] [] [] []]; reflexivity.
Qed.

(** [extractOrigin] with its pattern matching on characters turned into
    tests. *)
Lemma extractOrigin_unfold (c : ascii) (rest : string) :
  extractOrigin (String c rest)
  = if isAlpha c && negb (isEmpty (takeWhile isSchemeChar rest))
    then match dropWhile isSchemeChar rest with
         | String d after =>
             if Ascii.eqb d ":"
             then String c (takeWhile isSchemeChar rest ++ ":" ++ originTail after)
             else EmptyString
         | EmptyString => EmptyString
         end
    else EmptyString.
Proof.
  unfold extractOrigin. destruct (isAlpha c); [|reflexivity].
  destruct (isEmpty (takeWhile isSchemeChar rest)); [reflexivity|].
  cbn [andb negb].
  destruct (dropWhile isSchemeChar rest) as [|d after]; [reflexivity|].
  destruct d as [[] [] [] [] [] [] [] []]; try reflexivity.
  apply originTail_cases.
Qed.

Lemma originTail_prefix (after : string) :
  exists rest, after = (originTail after ++ rest)%string.
Proof.
  unfold originTail.
  destruct after as [|a [|b after']];
    try (eexists; apply takeWhile_dropWhile).
  destruct (Ascii.eqb_spec a "/") as [->|_];
    [|exists (dropWhile notSlash (String a (String b after')));
      apply takeWhile_dropWhile].
  destruct (Ascii.eqb_spec b "/") as [->|_];
    [|exists (dropWhile notSlash (String "/" (String b after')));
      apply takeWhile_dropWhile].
  exists (dropWhile notSlash after'). cbn [andb append]. do 2 f_equal.
  apply takeWhile_dropWhile.
Qed.

Lemma append_assoc (a b c : string) : ((a ++ b) ++ c = a ++ (b ++ c))%string.
Proof. induction a as [|x a IH]; [reflexivity|]. cbn. f_equal. exact IH. Qed.

Lemma extractOrigin_is_prefix_aux (url : string) :
  exists rest, url = (extractOrigin url ++ rest)%string.
Proof.
  destruct url as [|c rest]; [exists EmptyString; reflexivity|].
  rewrite extractOrigin_unfold.
  destruct (isAlpha c && negb (isEmpty (takeWhile isSchemeChar rest)));
    [|eexists; reflexivity].
  pose proof (takeWhile_dropWhile isSchemeChar rest) as Hsplit.
  destruct (dropWhile isSchemeChar rest) as [|d after]; [eexists; reflexivity|].
  destruct (Ascii.eqb_spec d ":") as [->|_]; [|eexists; reflexivity].
  destruct (originTail_prefix after) as (tail & Htail).
  exists tail. cbn [append]. f_equal.
  rewrite Hsplit at 1. rewrite append_assoc. f_equal.
  cbn [append]. f_equal. exact Htail.
Qed.

(** X1: the extracted origin is a prefix of the URL: nothing is decoded,
    reordered or added. *)
Theorem extractOrigin_is_prefix (url : string) :
  (exists rest, url = (extractOrigin url ++ rest)%string)
  /\ prefix (extractOrigin url) url = true.
Proof.
  pose proof (extractOrigin_is_prefix_aux url) as H.
  split; [exact H|].
  destruct H as (rest & H). rewrite H at 2. apply prefix_append.
Qed.

Lemma notSlash_all_no_prefix (s : string) :
  allChars notSlash s = true -> originTail s = s.
Proof.
  intros H. unfold originTail.
  destruct s as [|a [|b s']]; try (apply takeWhile_of_all; exact H).
  destruct (Ascii.eqb_spec a "/") as [->|_]; [discriminate|].
  apply takeWhile_of_all. exact H.
Qed.

Lemma originTail_idempotent (after : string) :
  originTail (originTail after) = originTail after.
Proof.
  assert (H : originTail after = takeWhile notSlash after
              \/ exists after', originTail after
                                = String "/" (String "/" (takeWhile notSlash after'))).
  { unfold originTail.
    destruct after as [|a [|b after']]; try (left; reflexivity).
    destruct (Ascii.eqb a "/" && Ascii.eqb b "/");
      [right; exists after'; reflexivity|left; reflexivity]. }
  destruct H as [->|(after' & ->)].
  - apply notSlash_all_no_prefix. apply takeWhile_all.
  - unfold originTail. cbn [Ascii.eqb Bool.eqb andb append]. do 2 f_equal.
    apply takeWhile_of_all. apply takeWhile_all.
Qed.

(** X2: extracting the origin of an extracted origin gives it back. *)
Theorem extractOrigin_idempotent (url : string) :
  extractOrigin (extractOrigin url) = extractOrigin url.
Proof.
  destruct url as [|c rest]; [reflexivity|].
  rewrite extractOrigin_unfold.
  destruct (isAlpha c) eqn:Hc; [|reflexivity].
  destruct (isEmpty (takeWhile isSchemeChar rest)) eqn:Hscheme; [reflexivity|].
  cbn [andb negb].
  destruct (dropWhile isSchemeChar rest) as [|d after]; [reflexivity|].
  destruct (Ascii.eqb_spec d ":") as [->|_]; [|reflexivity].
  rewrite extractOrigin_unfold.
  destruct (takeWhile_stop isSchemeChar (takeWhile isSchemeChar rest) ":"
              (originTail after) (takeWhile_all _ _) eq_refl) as [Htake Hdrop].
  change (takeWhile isSchemeChar rest ++ ":" ++ originTail after)%string
    with (takeWhile isSchemeChar rest ++ String ":" (originTail after))%string.
  rewrite Htake, Hdrop, Hc, Hscheme. cbn [andb negb Ascii.eqb Bool.eqb].
  rewrite originTail_idempotent. reflexivity.
Qed.

End OriginFacts.

Section WhitelistFacts.

Variable urlOrigin : string -> completion string.

(** X3: the compiled whitelist never makes the check raise: every entry
    [compileWhitelist] builds is a valid regular expression, so the check
    raises only when the URL parser does, and with the parser's exception. *)
Theorem passesWhitelist_raises_only_from_parser
    (W : list string) (url : string) (e : exn)
    (Hraises : _passesWhitelist urlOrigin (compileWhitelist W) url = Throw e) :
  urlOrigin url = Throw e.
Proof.
  rewrite passesWhitelist_unfold in Hraises.
  destruct (isEmpty (extractOrigin url)); [discriminate|].
  destruct (urlOrigin url) as [parsed|e']; [|congruence].
  destruct (String.eqb (extractOrigin url) parsed); discriminate.
Qed.

(** X4: the whitelist is monotone: a URL that passes keeps passing when
    patterns are added or the patterns are reordered. *)
Theorem passesWhitelist_monotone (W W' : list string) (url : string)
    (Hincl : forall p, In p W -> In p W')
    (Hpass : _passesWhitelist urlOrigin (compileWhitelist W) url
             = Normal (Some true)) :
  _passesWhitelist urlOrigin (compileWhitelist W') url = Normal (Some true).
Proof.
  rewrite passesWhitelist_unfold in *.
  destruct (isEmpty (extractOrigin url)); [discriminate|].
  destruct (urlOrigin url) as [parsed|e]; [|discriminate].
  destruct (String.eqb (extractOrigin url) parsed); [|discriminate].
  assert (H : existsb (fun p => globTest p (extractOrigin url))
                ("about:blank" :: W) = true) by congruence.
  do 2 f_equal. apply existsb_exists in H. apply existsb_exists.
  destruct H as (p & Hin & Hp). exists p. split; [|exact Hp].
  destruct Hin as [<-|Hin]; [left; reflexivity|right; apply Hincl; exact Hin].
Qed.

End WhitelistFacts.

Section LiteralPatterns.

Import Regex.

Lemma globTest_literal (p : string) : forall s b,
  hasChar "*" p = false ->
  matchHere (globTerms p ++ [TAtom AEnd]) b s = String.eqb p s.
Proof.
  induction p as [|c p IH]; intros s b Hp.
  - destruct s; reflexivity.
  - cbn [hasChar] in Hp. apply orb_false_iff in Hp. destruct Hp as [Hc Hp].
    cbn [globTerms app]. rewrite Ascii.eqb_sym in Hc. rewrite Hc.
    rewrite matchHere_char_cons. destruct s as [|d s]; [reflexivity|].
    cbn [String.eqb]. rewrite (IH s false Hp).
    destruct (Ascii.eqb c d); reflexivity.
Qed.

(** X5: a whitelist pattern without [*] matches its own text and nothing
    else: dots, brackets and the other regular-expression operators in a
    pattern stand for themselves. *)
Theorem literal_pattern_matches_itself (pattern s : string)
    (Hliteral : hasChar "*" pattern = false) :
  Regex.test (originWhitelistToRegex pattern) s = Normal (String.eqb pattern s).
Proof.
  rewrite test_originWhitelistToRegex. unfold globTest.
  rewrite globTest_literal by exact Hliteral. reflexivity.
Qed.

Lemma globTest_https (s : string) :
  globTest "https://*" s = true -> prefix "https://" s = true.
Proof.
  unfold globTest. cbn [globTerms app Ascii.eqb Bool.eqb].
  repeat (rewrite matchHere_char_cons;
          destruct s as [|? s]; [discriminate|];
          let H := fresh in
          intros H; apply andb_true_iff in H; destruct H as [H ?];
          apply Ascii.eqb_eq in H; subst;
          match goal with H' : _ = true |- _ => revert H' end).
  intros _. apply (prefix_append "https://").
Qed.

End LiteralPatterns.

Lemma prefix_trans_append (p s rest : string) :
  prefix p s = true -> prefix p (s ++ rest) = true.
Proof.
  revert s. induction p as [|c p IH]; intros s H.
  - destruct (s ++ rest)%string; reflexivity.
  - destruct s as [|d s]; [discriminate|].
    cbn [prefix append] in *. destruct (ascii_dec c d); [|discriminate].
    apply IH. exact H.
Qed.

Lemma globTest_about_blank (s : string) :
  globTest "about:blank" s = String.eqb "about:blank" s.
Proof. unfold globTest. apply globTest_literal. reflexivity. Qed.

Lemma default_admits (o : string) :
  existsb (fun p => globTest p o) ("about:blank" :: defaultOriginWhitelist) = true ->
  prefix "https://" o = true \/ o = "about:blank".
Proof.
  unfold defaultOriginWhitelist. cbn [existsb]. rewrite orb_false_r.
  intros H. apply orb_true_iff in H. destruct H as [H|H].
  - right. rewrite globTest_about_blank in H.
    apply String.eqb_eq in H. symmetry. exact H.
  - left. apply globTest_https. exact H.
Qed.

(** X6: with the default whitelist, only URLs that begin with [https://]
    pass (or a URL whose origin is [about:blank], the sentinel). *)
Theorem default_whitelist_admits_https_only
    (urlOrigin : string -> completion string) (url : string)
    (Hpass : _passesWhitelist urlOrigin (compileWhitelist defaultOriginWhitelist) url
             = Normal (Some true)) :
  prefix "https://" url = true \/ extractOrigin url = "about:blank".
Proof.
  rewrite passesWhitelist_unfold in Hpass.
  destruct (isEmpty (extractOrigin url)); [discriminate|].
  destruct (urlOrigin url) as [parsed|e]; [|discriminate].
  destruct (String.eqb (extractOrigin url) parsed); [|discriminate].
  remember (existsb (fun p => globTest p (extractOrigin url))
              ("about:blank" :: defaultOriginWhitelist)) as admitted eqn:Hadmitted.
  assert (Htrue : admitted = true) by congruence.
  rewrite Hadmitted in Htrue.
  destruct (default_admits _ Htrue) as [H|H]; [left|right; exact H].
  destruct (extractOrigin_is_prefix_aux url) as (rest & Hurl).
  rewrite Hurl. apply prefix_trans_append. exact H.
Qed.

(* ------------------------------------------------------------------ *)
(** ** More on the navigation state machine *)

Section StateMachineFacts.

Variable jsobject : Type.
Variable platform : Platform jsobject.
Variable props : Props jsobject.

Lemma passesWhitelist_same (url : string) :
  Rev2.passesWhitelist platform props url = Rev1.passesWhitelist platform props url.
Proof.
  unfold Rev2.passesWhitelist, Rev1.passesWhitelist.
  destruct url; reflexivity.
Qed.

(** X7: the guard on empty URLs that the second revision adds to
    [passesWhitelist] changes no answer, so the two revisions handle every
    message identically, reach the same state on load-finish and load-error,
    and their load-finish traces differ only by the navigation-state
    notification of the first. *)
Theorem revisions_agree :
  (forall url,
     Rev2.passesWhitelist platform props url
     = Rev1.passesWhitelist platform props url)
  /\ (forall event s,
        Rev2.onMessage platform props event s
        = Rev1.onMessage platform props event s)
  /\ (forall event s,
        final (Rev2.onLoadingFinish platform props event s)
        = final (Rev1.onLoadingFinish platform props event s)
        /\ trace (Rev1.onLoadingFinish platform props event s)
           = trace (Rev2.onLoadingFinish platform props event s)
             ++ (if passed (Rev1.passesWhitelist platform props (ev_url event))
                 then listenerCalls (onNavigationStateChange props)
                        OnNavigationStateChange event
                 else []))
  /\ (forall event s,
        Rev2.onLoadingError props event s = Rev1.onLoadingError props event s).
Proof.
  split; [exact passesWhitelist_same|]. split; [|split].
  - intros event s.
    rewrite message_run_rev1, message_run_rev2, passesWhitelist_same.
    reflexivity.
  - intros event s.
    destruct (finish_run_rev1 platform props event s) as [Ht1 Hf1].
    destruct (finish_run_rev2 platform props event s) as [Ht2 Hf2].
    rewrite Hf1, Hf2, Ht1, Ht2, passesWhitelist_same. split; [reflexivity|].
    destruct (passed _); rewrite !app_nil_r, <- ?app_assoc; reflexivity.
  - intros event s. reflexivity.
Qed.

(** The view state after each operation. *)
Lemma viewState_after1 (op : operation) (s : HookState) :
  viewState (final (perform1 platform props op s))
  = match op with
    | LoadingProgress e => viewState (afterProgress platform true e s)
    | LoadingError e => viewState (afterError props e s)
    | LoadingFinish e =>
        if passed (Rev1.passesWhitelist platform props (ev_url e))
           && (negb (isAndroid (Platform_OS platform))
               || sameUrl (ev_url e) (startUrl s))
        then IDLE else viewState s
    | Reload => LOADING
    | _ => viewState s
    end.
Proof.
  destruct op; cbn [perform1].
  - rewrite start_final_rev1. reflexivity.
  - rewrite progress_final_rev1. reflexivity.
  - rewrite error_final_rev1. reflexivity.
  - destruct (finish_run_rev1 platform props e s) as [_ ->].
    match goal with |- context [if ?b then _ else _] => destruct b end;
      reflexivity.
  - unfold Rev1.onHttpError. rewrite passthrough_final. reflexivity.
  - unfold Rev1.onRenderProcessGone. rewrite passthrough_final. reflexivity.
  - unfold Rev1.onContentProcessDidTerminate. rewrite passthrough_final.
    reflexivity.
  - rewrite message_final_rev1. reflexivity.
  - unfold Rev1.onShouldStartLoadWithRequest. rewrite interceptor_final.
    reflexivity.
  - reflexivity.
Qed.

Lemma viewState_after2 (op : operation) (s : HookState) :
  viewState (final (perform2 platform props op s))
  = match op with
    | LoadingProgress e =>
        viewState (afterProgress platform
                     (passed (Rev2.passesWhitelist platform props
                                (ev_url (prog_event e)))) e s)
    | LoadingError e => viewState (afterError props e s)
    | LoadingFinish e =>
        if passed (Rev2.passesWhitelist platform props (ev_url e))
           && (negb (isAndroid (Platform_OS platform))
               || sameUrl (ev_url e) (startUrl s))
        then IDLE else viewState s
    | Reload => LOADING
    | _ => viewState s
    end.
Proof.
  destruct op; cbn [perform2]; try reflexivity.
  - rewrite start_final_rev2. reflexivity.
  - rewrite progress_final_rev2. reflexivity.
  - rewrite error_final_rev2. reflexivity.
  - destruct (finish_run_rev2 platform props e s) as [_ ->].
    match goal with |- context [if ?b then _ else _] => destruct b end;
      reflexivity.
  - rewrite message_final_rev2. reflexivity.
  - unfold Rev2.onShouldStartLoadWithRequest. rewrite interceptor_final.
    reflexivity.
Qed.

Lemma afterProgress_viewState (gate : bool) (e : WebViewProgress) (s : HookState) :
  viewState (afterProgress platform gate e s) = viewState s
  \/ (viewState s = LOADING /\ viewState (afterProgress platform gate e s) = IDLE).
Proof.
  unfold afterProgress.
  destruct (gate && isAndroid (Platform_OS platform)
            && Qeq_bool (prog_progress e) 1); cbn [andb]; [|left; reflexivity].
  destruct (viewState s) eqn:Hv; cbn [isLOADING]; auto.
Qed.

Lemma afterError_viewState (e : WebViewErrorEvent) (s : HookState) :
  viewState (afterError props e s) = viewState s
  \/ viewState (afterError props e s) = ERROR.
Proof. unfold afterError. destruct (isDefaultPrevented props e); auto. Qed.


Lemma moves1 : moves (perform1 platform props).
Proof.
  intros op s. cbv zeta. rewrite viewState_after1.
  destruct op; cbn [isReload isLoadingFinish isLoadingError];
    try solve [left; reflexivity].
  - destruct (afterProgress_viewState true e s) as [H|[H1 H2]];
      [left; exact H|right; right; right; right; split; assumption].
  - destruct (afterError_viewState e s) as [H|H];
      [left; exact H|right; right; right; left; split; [reflexivity|exact H]].
  - match goal with |- context [if ?b then _ else _] => destruct b end;
      [right; right; left; split; reflexivity|left; reflexivity].
  - right; left; split; reflexivity.
Qed.

Lemma moves2 : moves (perform2 platform props).
Proof.
  intros op s. cbv zeta. rewrite viewState_after2.
  destruct op; cbn [isReload isLoadingFinish isLoadingError];
    try solve [left; reflexivity].
  - destruct (afterProgress_viewState
                (passed (Rev2.passesWhitelist platform props (ev_url (prog_event e))))
                e s) as [H|[H1 H2]];
      [left; exact H|right; right; right; right; split; assumption].
  - destruct (afterError_viewState e s) as [H|H];
      [left; exact H|right; right; right; left; split; [reflexivity|exact H]].
  - match goal with |- context [if ?b then _ else _] => destruct b end;
      [right; right; left; split; reflexivity|left; reflexivity].
  - right; left; split; reflexivity.
Qed.

Lemma loading_needs_reload (perform : operation -> handler unit)
      (ops : list operation) :
  moves perform ->
  forallb (fun op => negb (isReload op)) ops = true ->
  forall s, viewState s <> LOADING ->
            viewState (performAll perform ops s) <> LOADING.
Proof.
  intros Hmoves. induction ops as [|op ops IH]; intros Hops s Hs; [exact Hs|].
  cbn [forallb] in Hops. apply andb_true_iff in Hops. destruct Hops as [Hop Hops].
  cbn [performAll]. apply (IH Hops).
  destruct (Hmoves op s) as [H|[[H _]|[[_ H]|[[_ H]|[_ H]]]]];
    cbv zeta in H; try (rewrite H); try discriminate.
  - exact Hs.
  - rewrite H in Hop. discriminate.
Qed.

(** X8: no event handler enters LOADING: an operation that leaves the view
    in LOADING either found it there or is [reload].  So a component that
    does not start in the loading state never shows the loading placeholder
    until [reload] is called: load-start does not enter LOADING.  Both
    revisions. *)
Theorem loading_entered_only_by_reload :
  (forall op s,
     viewState (final (perform1 platform props op s)) = LOADING ->
     isReload op = true \/ viewState s = LOADING)
  /\ (forall op s,
        viewState (final (perform2 platform props op s)) = LOADING ->
        isReload op = true \/ viewState s = LOADING)
  /\ (forall ops,
        startInLoadingState props = false ->
        forallb (fun op => negb (isReload op)) ops = true ->
        viewState (performAll (perform1 platform props) ops
                     (Rev1.initialState props)) <> LOADING
        /\ viewState (performAll (perform2 platform props) ops
                        (Rev2.initialState props)) <> LOADING).
Proof.
  split; [|split].
  - intros op s H.
    destruct (moves1 op s) as [Hm|[[Hm _]|[[_ Hm]|[[_ Hm]|[_ Hm]]]]];
      cbv zeta in Hm; auto; try congruence.
    right. congruence.
  - intros op s H.
    destruct (moves2 op s) as [Hm|[[Hm _]|[[_ Hm]|[[_ Hm]|[_ Hm]]]]];
      cbv zeta in Hm; auto; try congruence.
    right. congruence.
  - intros ops Hstart Hops. split.
    + apply loading_needs_reload; [exact moves1|exact Hops|].
      cbn. rewrite Hstart. discriminate.
    + apply loading_needs_reload; [exact moves2|exact Hops|].
      cbn. rewrite Hstart. discriminate.
Qed.

(** X9: the ERROR state is left only by a load-finish event, which moves
    to IDLE, or by [reload], which moves to LOADING; progress events,
    messages and load-start leave it in place.  Both revisions. *)
Theorem error_left_only_by_finish_or_reload (op : operation) (s : HookState)
    (Herror : viewState s = ERROR) :
  (viewState (final (perform1 platform props op s)) <> ERROR ->
   (isLoadingFinish op = true
    /\ viewState (final (perform1 platform props op s)) = IDLE)
   \/ (isReload op = true
       /\ viewState (final (perform1 platform props op s)) = LOADING))
  /\ (viewState (final (perform2 platform props op s)) <> ERROR ->
      (isLoadingFinish op = true
       /\ viewState (final (perform2 platform props op s)) = IDLE)
      \/ (isReload op = true
          /\ viewState (final (perform2 platform props op s)) = LOADING)).
Proof.
  split; intros Hleft.
  - destruct (moves1 op s) as [Hm|[Hm|[Hm|[[_ Hm]|[Hm _]]]]];
      cbv zeta in Hm; auto; congruence.
  - destruct (moves2 op s) as [Hm|[Hm|[Hm|[[_ Hm]|[Hm _]]]]];
      cbv zeta in Hm; auto; congruence.
Qed.

(** X10: a load-start followed by the load-finish of the same URL ends in
    IDLE on every platform whenever that URL passes the whitelist, whatever
    the state before (ERROR included).  Both revisions. *)
Theorem start_then_finish_is_idle
    (started finished : WebViewNativeEvent) (s : HookState)
    (Hsame : ev_url finished = ev_url started)
    (Hpass : passed (Rev1.passesWhitelist platform props (ev_url finished)) = true) :
  viewState (final (Rev1.onLoadingFinish platform props finished
                      (final (Rev1.onLoadingStart props started s)))) = IDLE
  /\ viewState (final (Rev2.onLoadingFinish platform props finished
                         (final (Rev2.onLoadingStart props started s)))) = IDLE.
Proof.
  split.
  - destruct (finish_run_rev1 platform props finished
                (final (Rev1.onLoadingStart props started s))) as [_ ->].
    rewrite Hpass, start_final_rev1. cbn [startUrl sameUrl]. rewrite Hsame.
    rewrite String.eqb_refl, orb_true_r. reflexivity.
  - destruct (finish_run_rev2 platform props finished
                (final (Rev2.onLoadingStart props started s))) as [_ ->].
    rewrite passesWhitelist_same, Hpass, start_final_rev2.
    cbn [startUrl sameUrl]. rewrite Hsame.
    rewrite String.eqb_refl, orb_true_r. reflexivity.
Qed.


Lemma keepsRecord_of_shape (perform : operation -> handler unit) :
  stepShape props perform -> keepsRecord props perform.
Proof.
  intros Hshape op s. specialize (Hshape op s).
  destruct op; try (destruct Hshape as [-> | [-> | ->]]; reflexivity).
  - rewrite Hshape. reflexivity.
  - rewrite Hshape. unfold afterError.
    destruct (isDefaultPrevented props e); reflexivity.
Qed.

Lemma recorded_after_all (perform : operation -> handler unit)
      (ops : list operation) :
  keepsRecord props perform ->
  forall s, lastErrorEvent (performAll perform ops s)
            = recordedError props ops (lastErrorEvent s).
Proof.
  intros Hkeep. induction ops as [|op ops IH]; intros s; [reflexivity|].
  cbn [performAll]. rewrite IH, Hkeep. destruct op; reflexivity.
Qed.

(** X11: whatever the sequence of operations, the stored error record is
    that of the latest load-error event that was not default-prevented.
    Nothing clears it: not a later successful load, not [reload].  Both
    revisions. *)
Theorem stored_error_is_latest (ops : list operation) (s : HookState) :
  lastErrorEvent (performAll (perform1 platform props) ops s)
  = recordedError props ops (lastErrorEvent s)
  /\ lastErrorEvent (performAll (perform2 platform props) ops s)
     = recordedError props ops (lastErrorEvent s).
Proof.
  split; apply recorded_after_all; apply keepsRecord_of_shape.
  - apply stepShape1.
  - apply stepShape2.
Qed.

(** X12: when the whitelist check does not answer [true], the interceptor
    never consults the host's [onShouldStartLoadWithRequest], which
    therefore cannot override the denial, and it probes the external opener
    for the URL exactly once; when it answers [true], the URL is never
    handed to the external opener. *)
Theorem interceptor_denial_is_final
    (whitelist : list string) (custom : WebViewNativeEvent -> bool)
    (nativeEvent : WebViewNativeEvent) (s : HookState) (passes : option bool)
    (Hreturns : _passesWhitelist (urlOrigin platform)
                  (compileWhitelist whitelist) (ev_url nativeEvent)
                = Normal passes) :
  trace (createOnShouldStartLoadWithRequest platform whitelist (Some custom)
           nativeEvent s)
  = if truthy passes
    then [OnShouldStartLoadWithRequest nativeEvent;
          LoadRequest (custom nativeEvent) (ev_url nativeEvent)
            (ev_lockIdentifier nativeEvent)]
    else [LinkingCanOpenURL (ev_url nativeEvent);
          LoadRequest false (ev_url nativeEvent) (ev_lockIdentifier nativeEvent)].
Proof. rewrite interceptor_run, Hreturns. reflexivity. Qed.

End StateMachineFacts.

(* ------------------------------------------------------------------ *)
(** ** More on the version gate *)

Section VersionOrder.

Lemma compareFrom_refl (xs : list N) (steps : nat) : forall i,
  compareFrom xs xs i steps = true.
Proof.
  induction steps as [|steps IH]; intros i; [reflexivity|].
  cbn [compareFrom]. rewrite N.ltb_irrefl. apply IH.
Qed.

Lemma compareFrom_beyond (xs ys : list N) (steps : nat) : forall i,
  List.length xs <= i -> List.length ys <= i ->
  compareFrom xs ys i steps = true.
Proof.
  induction steps as [|steps IH]; intros i Hx Hy; [reflexivity|].
  cbn [compareFrom]. rewrite (nth_overflow xs 0%N Hx), (nth_overflow ys 0%N Hy).
  cbn. apply IH; lia.
Qed.

(** Iterating past the longer list does not change the comparison. *)
Lemma compareFrom_extend (xs ys : list N) (steps : nat) : forall i extra,
  Nat.max (List.length xs) (List.length ys) <= i + steps ->
  compareFrom xs ys i (steps + extra) = compareFrom xs ys i steps.
Proof.
  induction steps as [|steps IH]; intros i extra Hlen.
  - cbn [Nat.add compareFrom]. apply compareFrom_beyond; lia.
  - cbn [Nat.add compareFrom].
    destruct (nth i ys 0 <? nth i xs 0)%N; [reflexivity|].
    destruct (nth i xs 0 <? nth i ys 0)%N; [reflexivity|].
    apply IH. lia.
Qed.

Lemma compareFrom_trans (xs ys zs : list N) (steps : nat) : forall i,
  compareFrom xs ys i steps = true -> compareFrom ys zs i steps = true ->
  compareFrom xs zs i steps = true.
Proof.
  induction steps as [|steps IH]; intros i Hxy Hyz; [reflexivity|].
  cbn [compareFrom] in *.
  destruct (N.ltb_spec (nth i ys 0%N) (nth i xs 0%N)) as [Hyx|Hyx];
    destruct (N.ltb_spec (nth i zs 0%N) (nth i ys 0%N)) as [Hzy|Hzy];
    destruct (N.ltb_spec (nth i zs 0%N) (nth i xs 0%N)) as [Hzx|Hzx];
    try reflexivity; try lia.
  - destruct (N.ltb_spec (nth i ys 0%N) (nth i zs 0%N)); [discriminate|]. lia.
  - destruct (N.ltb_spec (nth i xs 0%N) (nth i ys 0%N)); [discriminate|]. lia.
  - destruct (N.ltb_spec (nth i xs 0%N) (nth i ys 0%N)); [discriminate|].
    destruct (N.ltb_spec (nth i ys 0%N) (nth i zs 0%N)); [discriminate|].
    destruct (N.ltb_spec (nth i xs 0%N) (nth i zs 0%N)); [lia|].
    apply IH; assumption.
Qed.

Lemma compareVersions_with (v w : string) (steps : nat) :
  Nat.max (List.length (map Number (split "." v)))
          (List.length (map Number (split "." w))) <= steps ->
  compareVersions v w
  = compareFrom (map Number (split "." v)) (map Number (split "." w)) 0 steps.
Proof.
  intros H. unfold compareVersions. cbv zeta.
  replace steps
    with (Nat.max (List.length (map Number (split "." v)))
                  (List.length (map Number (split "." w)))
          + (steps - Nat.max (List.length (map Number (split "." v)))
                             (List.length (map Number (split "." w)))))
    by lia.
  symmetry. apply compareFrom_extend. lia.
Qed.

Lemma compareVersions_refl (v : string) : compareVersions v v = true.
Proof. apply compareFrom_refl. Qed.

Lemma compareVersions_trans (v w u : string) :
  compareVersions v w = true -> compareVersions w u = true ->
  compareVersions v u = true.
Proof.
  set (n := List.length (map Number (split "." v))
            + List.length (map Number (split "." w))
            + List.length (map Number (split "." u))).
  rewrite (@compareVersions_with v w n), (@compareVersions_with w u n),
    (@compareVersions_with v u n) by (unfold n; lia).
  apply compareFrom_trans.
Qed.

Lemma atLeast_dotted (version minimum : string) :
  versionRegex_test minimum = true ->
  versionPasses (Some version) (Some minimum) = Some (atLeast version minimum).
Proof. apply versionPasses_dotted. Qed.

(** X13: a well-formed dotted version satisfies itself as a minimum. *)
Theorem versionPasses_reflexive (v : string)
    (Hdotted : versionRegex_test v = true) :
  versionPasses (Some v) (Some v) = Some true.
Proof.
  rewrite (@atLeast_dotted v v Hdotted). unfold atLeast.
  destruct (@dotted_is_plain v Hdotted) as (-> & _).
  rewrite Hdotted, compareVersions_refl. reflexivity.
Qed.

Lemma versionPasses_reflexive_witness :
  versionPasses (Some "14.8.1") (Some "14.8.1") = Some true.
Proof. apply (@versionPasses_reflexive "14.8.1" eq_refl). Defined.

(** X14: on plain dotted minimums [versionPasses] is a total preorder.  It is
    transitive: a version that satisfies [w] satisfies every minimum [w]
    itself satisfies, so lowering a minimum never rejects a version that
    passed.  And of two dotted versions one always satisfies the other. *)
Theorem versionPasses_preorder (v w u : string)
    (Hw : versionRegex_test w = true) (Hu : versionRegex_test u = true) :
  (versionPasses (Some v) (Some w) = Some true ->
   versionPasses (Some w) (Some u) = Some true ->
   versionPasses (Some v) (Some u) = Some true)
  /\ (versionPasses (Some w) (Some u) = Some true
      \/ versionPasses (Some u) (Some w) = Some true).
Proof.
  rewrite (@atLeast_dotted v w Hw), (@atLeast_dotted w u Hu),
    (@atLeast_dotted v u Hu), (@atLeast_dotted u w Hw).
  unfold atLeast.
  destruct (@dotted_is_plain w Hw) as (Hew & _).
  destruct (@dotted_is_plain u Hu) as (Heu & _).
  rewrite Hew, Heu, Hw, Hu. cbn [negb andb]. split.
  - intros Hvw Hwu. injection Hvw as Hvw. injection Hwu as Hwu.
    apply andb_true_iff in Hvw. destruct Hvw as [Hv Hvw].
    rewrite Hv. cbn [andb]. f_equal.
    apply (@compareVersions_trans v w u Hvw Hwu).
  - destruct (compareVersions w u) eqn:Hwu; [left; reflexivity|].
    right. f_equal. apply compareVersions_total. exact Hwu.
Qed.

Lemma versionPasses_preorder_witness :
  versionPasses (Some "15.7.1") (Some "12.5") = Some true.
Proof.
  apply (proj1 (@versionPasses_preorder "15.7.1" "13.6.1" "12.5" eq_refl eq_refl));
    reflexivity.
Defined.

End VersionOrder.

Section MalformedVersion.

Lemma someCut_all_false {A : Type} (f : A -> option bool) (l : list A) (b : bool) :
  (forall x c, f x = Some c -> c = false) -> someCut f l = Some b -> b = false.
Proof.
  intros Hf. induction l as [|x l IH]; cbn [someCut]; intros H.
  - congruence.
  - destruct (f x) as [[|]|] eqn:Hx; try discriminate.
    + apply Hf in Hx. discriminate.
    + apply IH. exact H.
Qed.

Lemma malformed_within (v : string) (fuel : nat) :
  versionRegex_test v = false ->
  forall minimum b,
    versionPassesWithin fuel (Some v) minimum = Some b -> b = false.
Proof.
  intros Hv. induction fuel as [|fuel IH]; intros minimum b H; [discriminate|].
  cbn [versionPassesWithin] in H. unfold versionPassesBody in H.
  destruct minimum as [minimum|]; [|congruence].
  destruct (isEmpty v || isEmpty minimum); [congruence|].
  destruct (includes ", " minimum).
  - cbv zeta in H. destruct (negb _); [congruence|].
    apply someCut_all_false in H; [exact H|].
    intros x c Hx. apply (IH _ _ Hx).
  - destruct (includes " <" minimum).
    + cbv zeta in H. destruct (0 <? _)%nat; [congruence|].
      destruct (versionPassesWithin fuel (Some v)
                  (nth_error (split " <" minimum) 0)) as [[|]|] eqn:Hmin;
        cbn [andCut] in H; try congruence.
      apply IH in Hmin. discriminate.
    + rewrite Hv in H. cbn in H. congruence.
Qed.

Lemma malformed_fails (v : string) (minimum : option string) :
  versionRegex_test v = false -> versionPasses (Some v) minimum = Some false.
Proof.
  intros Hmalformed.
  destruct (versionPasses_returns (Some v) minimum) as (b & Hb).
  rewrite Hb. f_equal.
  apply (@malformed_within v _ Hmalformed minimum b Hb).
Qed.

(** X15: a version string that is not dotted-numeric satisfies no
    minimum, whatever its form (plain, range or list of ranges):
    [versionPasses] fails closed on a malformed platform version. *)
Theorem malformed_version_never_passes (v : string) (minimum : option string)
    (Hmalformed : versionRegex_test v = false) :
  versionPasses (Some v) minimum = Some false.
Proof. apply malformed_fails. exact Hmalformed. Qed.

Lemma malformed_version_never_passes_witness :
  versionPasses (Some "15.x") (Some hardMinimumIOSVersion) = Some false.
Proof.
  apply (@malformed_version_never_passes "15.x" (Some hardMinimumIOSVersion) eq_refl).
Defined.

End MalformedVersion.

Section Ranges.

Lemma hasChar_append (c : ascii) (a b : string) :
  hasChar c (a ++ b) = hasChar c a || hasChar c b.
Proof.
  induction a as [|x a IH]; [reflexivity|].
  cbn [append hasChar]. rewrite IH. apply orb_assoc.
Qed.

Lemma dotted_without (c : ascii) (s : string) : forall inNumber,
  isDigit c = false -> Ascii.eqb c "." = false ->
  versionRegexFrom inNumber s = true -> hasChar c s = false.
Proof.
  intros inNumber Hdigit Hdot. revert inNumber.
  induction s as [|d s IH]; intros inNumber H; [reflexivity|].
  cbn [versionRegexFrom] in H. cbn [hasChar].
  destruct (Ascii.eqb_spec c d) as [<-|_].
  - rewrite Hdigit, Hdot in H. discriminate.
  - cbn [orb]. destruct (isDigit d); [apply (IH true H)|].
    destruct (Ascii.eqb d "." && inNumber); [apply (IH false H)|discriminate].
Qed.

Lemma split_without_space (s : string) :
  hasChar " " s = false -> split " <" s = [s].
Proof.
  unfold split. induction s as [|c s IH]; intros H; [reflexivity|].
  cbn [hasChar] in H. apply orb_false_iff in H. destruct H as [Hc Hs].
  cbn [splitFrom prefix].
  destruct (ascii_dec " " c) as [<-|_]; [discriminate|].
  rewrite (IH Hs). reflexivity.
Qed.

Lemma split_range (min max : string) :
  hasChar " " min = false -> hasChar " " max = false ->
  split " <" (min ++ " <" ++ max) = [min; max].
Proof.
  intros Hmin Hmax. unfold split.
  assert (Htail : splitFrom " <" 0 (" <" ++ max) = [EmptyString; max]).
  { cbn [append splitFrom prefix String.length Nat.sub].
    destruct (ascii_dec " " " "); [|contradiction].
    destruct (ascii_dec "<" "<"); [|contradiction].
    replace (prefix EmptyString max) with true by (destruct max; reflexivity).
    change (splitFrom " <" 0 max) with (split " <" max).
    rewrite (@split_without_space max Hmax). reflexivity. }
  remember (" <" ++ max)%string as tail eqn:Etail.
  induction min as [|c min IH]; [exact Htail|].
  cbn [hasChar] in Hmin. apply orb_false_iff in Hmin. destruct Hmin as [Hc Hmin].
  cbn [append splitFrom prefix].
  destruct (ascii_dec " " c) as [<-|_]; [discriminate|].
  rewrite (IH Hmin). reflexivity.
Qed.

Lemma prefix_includes (sep s : string) :
  prefix sep s = true -> includes sep s = true.
Proof. intros H. destruct s; cbn [includes]; rewrite H; reflexivity. Qed.

Lemma includes_range (min max : string) :
  includes " <" (min ++ " <" ++ max) = true.
Proof.
  induction min as [|c min IH].
  - apply prefix_includes. apply (prefix_append " <" max).
  - change (String c min ++ " <" ++ max)%string
      with (String c (min ++ " <" ++ max)).
    cbn [includes]. rewrite IH. apply orb_true_r.
Qed.

Lemma range_without_comma (min max : string) :
  hasChar "," min = false -> hasChar "," max = false ->
  includes ", " (min ++ " <" ++ max) = false.
Proof.
  intros Hmin Hmax.
  destruct (includes ", " (min ++ " <" ++ max)) eqn:Hinc; [|reflexivity].
  apply (@includes_hasChar "," ", " _) in Hinc; [|reflexivity].
  rewrite !hasChar_append, Hmin, Hmax in Hinc. discriminate.
Qed.

(** The range clause on dotted bounds. *)
Lemma versionPasses_inRange (v min max : string) :
  versionRegex_test min = true -> versionRegex_test max = true ->
  versionPasses (Some v) (Some (min ++ " <" ++ max)%string) = Some (inRange v min max).
Proof.
  intros Hmin Hmax.
  assert (Hsmin : hasChar " " min = false)
    by (apply (@dotted_without " " min false); [reflexivity|reflexivity|exact Hmin]).
  assert (Hsmax : hasChar " " max = false)
    by (apply (@dotted_without " " max false); [reflexivity|reflexivity|exact Hmax]).
  assert (Hcmin : hasChar "," min = false)
    by (apply (@dotted_without "," min false); [reflexivity|reflexivity|exact Hmin]).
  assert (Hcmax : hasChar "," max = false)
    by (apply (@dotted_without "," max false); [reflexivity|reflexivity|exact Hmax]).
  rewrite versionPasses_unfold. unfold versionPassesBody.
  rewrite (@range_without_comma min max Hcmin Hcmax), (includes_range min max),
    (@split_range min max Hsmin Hsmax).
  rewrite (@includes_nonempty " <" _ bound_nonempty (includes_range min max)).
  rewrite orb_false_r. unfold inRange.
  destruct (isEmpty v) eqn:Hv; [unfold atLeast; rewrite Hv; reflexivity|].
  cbn [nth_error skipn List.length Nat.ltb Nat.leb].
  rewrite (@atLeast_dotted v min Hmin), (@atLeast_dotted v max Hmax).
  destruct (atLeast v min) eqn:Ha; [|reflexivity].
  destruct (atLeast v max) eqn:Hb; [reflexivity|].
  cbn [andCut notCut option_map negb andb].
  unfold atLeast in Ha, Hb. rewrite Hv in Ha, Hb. cbn [negb andb] in Ha, Hb.
  apply andb_true_iff in Ha. destruct Ha as [Hdv _].
  rewrite Hdv in Hb. cbn [andb] in Hb.
  rewrite (@atLeast_dotted max v Hdv). unfold atLeast.
  destruct (@dotted_is_plain max Hmax) as (-> & _).
  rewrite Hmax, (@compareVersions_total v max Hb). reflexivity.
Qed.



(** X17: the hard minimum of the iOS component admits exactly the versions
    from 12.5.6 up to but excluding 13, from 13.6.1 up to but excluding 14,
    from 14.8.1 up to but excluding 15, and from 15.7.1 on. *)
Theorem hard_minimum_versions (v : string) :
  versionPasses (Some v) (Some hardMinimumIOSVersion)
  = Some (inRange v "12.5.6" "13" || inRange v "13.6.1" "14"
          || inRange v "14.8.1" "15" || atLeast v "15.7.1").
Proof.
  rewrite versionPasses_unfold. unfold versionPassesBody.
  destruct (isEmpty v) eqn:Hv.
  - destruct v; [reflexivity|discriminate].
  - change (isEmpty hardMinimumIOSVersion) with false.
    change (includes ", " hardMinimumIOSVersion) with true.
    cbn [orb]. cbv zeta.
    change (split ", " hardMinimumIOSVersion)
      with ["12.5.6" ++ " <" ++ "13"; "13.6.1" ++ " <" ++ "14";
            "14.8.1" ++ " <" ++ "15"; "15.7.1"]%string.
    replace (forallb _ _) with true by reflexivity.
    cbn [negb someCut].
    rewrite (@versionPasses_inRange v "12.5.6" "13" eq_refl eq_refl),
      (@versionPasses_inRange v "13.6.1" "14" eq_refl eq_refl),
      (@versionPasses_inRange v "14.8.1" "15" eq_refl eq_refl),
      (@atLeast_dotted v "15.7.1" eq_refl).
    destruct (inRange v "12.5.6" "13"), (inRange v "13.6.1" "14"),
      (inRange v "14.8.1" "15"), (atLeast v "15.7.1"); reflexivity.
Qed.

End Ranges.

Section ComponentGate.

Variable jsobject : Type.
Variable platform : Platform jsobject.
Variable props : Props jsobject.

Lemma versionPasses_undefined_minimum (version : option string) :
  versionPasses version None = Some false.
Proof. rewrite versionPasses_unfold. destruct version; reflexivity. Qed.

(** X18: the iOS component shows the web view only if the platform version
    is dotted-numeric and satisfies both the host's [minimumIOSVersion] and
    the hard minimum; without a [minimumIOSVersion] it renders the
    unsupported-version placeholder for every platform version.  The render
    function always returns, and in the states the hook reaches it never
    trips the [invariant] on the error record. *)
Theorem component_version_gate (version : string) (custom : bool) :
  (forall s,
     renderComponent version None custom s
     = Some (Normal (if custom then UnsupportedVersionCustom
                     else UnsupportedVersionText)))
  /\ (forall minimumIOSVersion s other,
        renderComponent version minimumIOSVersion custom s
        = Some (Normal (WebViewShown other)) ->
        exists minimum,
          minimumIOSVersion = Some minimum
          /\ versionPasses (Some version) (Some minimum) = Some true
          /\ versionPasses (Some version) (Some hardMinimumIOSVersion) = Some true
          /\ versionRegex_test version = true)
  /\ (forall minimumIOSVersion s,
        reachable props (perform2 platform props) s ->
        exists view,
          renderComponent version minimumIOSVersion custom s
          = Some (Normal view)).
Proof.
  split; [|split].
  - intros s. unfold renderComponent, versionSupported.
    rewrite versionPasses_undefined_minimum. reflexivity.
  - intros minimumIOSVersion s other H.
    unfold renderComponent, versionSupported in H.
    destruct minimumIOSVersion as [minimum|];
      [|rewrite versionPasses_undefined_minimum in H; cbn [andCut] in H;
        destruct custom; discriminate].
    exists minimum. split; [reflexivity|].
    destruct (versionPasses (Some version) (Some minimum)) as [[|]|] eqn:Hmin;
      cbn [andCut] in H; try (destruct custom; discriminate).
    destruct (versionPasses (Some version) (Some hardMinimumIOSVersion))
      as [[|]|] eqn:Hhard; try (destruct custom; discriminate).
    repeat split.
    destruct (versionRegex_test version) eqn:Hv; [reflexivity|].
    rewrite (@malformed_fails version (Some hardMinimumIOSVersion) Hv) in Hhard.
    discriminate.
  - intros minimumIOSVersion s Hreach.
    destruct (errorContract_of_shape (stepShape2 platform props))
      as (Hinv & _).
    destruct (Hinv s Hreach) as (_ & view & Hview).
    unfold renderComponent, versionSupported.
    destruct (versionPasses_returns (Some version) minimumIOSVersion) as ([|] & ->);
      cbn [andCut].
    + destruct (versionPasses_returns (Some version) (Some hardMinimumIOSVersion))
        as ([|] & ->).
      * rewrite Hview. cbn [cbind]. eauto.
      * eauto.
    + eauto.
Qed.

End ComponentGate.

Section WarnIfChanges.

Variable T : Type.
Variable same : T -> T -> bool.
Hypothesis same_spec : forall a b, same a b = true <-> a = b.

Lemma warnings_after (name : string) (values : list T) : forall current,
  List.length (warnings same (Some current) values name)
  = changes same current values.
Proof.
  induction values as [|value values IH]; intros current; [reflexivity|].
  cbn [warnings changes useWarnIfChanges].
  destruct (same current value) eqn:Hsame; cbn [negb fst snd app].
  - apply same_spec in Hsame. subst value. apply IH.
  - cbn [List.length]. rewrite IH. reflexivity.
Qed.

(** X19: over successive renders, [useWarnIfChanges] logs nothing on the
    first render and then exactly one warning for each render whose value
    differs from that of the render before; a property that keeps its value
    is never warned about. *)
Theorem warns_once_per_change (name : string) (first : T) (values : list T) :
  List.length (warnings same None (first :: values) name)
  = changes same first values
  /\ (forall n, warnings same None (repeat first n) name = []).
Proof.
  split.
  - cbn [warnings useWarnIfChanges fst snd app]. apply warnings_after.
  - intros n. destruct n as [|n]; [reflexivity|].
    cbn [repeat warnings useWarnIfChanges fst snd app].
    induction n as [|n IH]; [reflexivity|].
    cbn [repeat warnings useWarnIfChanges].
    rewrite (proj2 (same_spec first first) eq_refl). cbn [negb fst snd app].
    exact IH.
Qed.

End WarnIfChanges.

Lemma bool_same_spec (a b : bool) : Bool.eqb a b = true <-> a = b.
Proof. apply Bool.eqb_true_iff. Qed.

Lemma warns_once_per_change_witness :
  List.length (warnings Bool.eqb None [false; false; true; true; false] "incognito")
  = 2.
Proof.
  exact (proj1 (@warns_once_per_change bool Bool.eqb bool_same_spec
                  "incognito" false [false; true; true; false])).
Defined.

(* ------------------------------------------------------------------ *)
(** ** The further properties on the sample host *)

Lemma passesWhitelist_raises_only_from_parser_witness :
  Sample.origin "https://" = Throw (TypeError "Invalid URL").
Proof.
  apply (@passesWhitelist_raises_only_from_parser Sample.origin
           defaultOriginWhitelist "https://" (TypeError "Invalid URL") eq_refl).
Defined.

Lemma passesWhitelist_monotone_witness :
  _passesWhitelist Sample.origin (compileWhitelist ["http://*"; "https://*"])
    "https://example.com/" = Normal (Some true).
Proof.
  apply (@passesWhitelist_monotone Sample.origin defaultOriginWhitelist
           ["http://*"; "https://*"] "https://example.com/").
  - intros p [<-|[]]. right. left. reflexivity.
  - reflexivity.
Defined.

Lemma literal_pattern_matches_itself_witness :
  Regex.test (originWhitelistToRegex "https://example.com") "https://exampleXcom"
  = Normal false
  /\ Regex.test (originWhitelistToRegex "https://example.com") "https://example.com"
     = Normal true.
Proof.
  split.
  - exact (@literal_pattern_matches_itself "https://example.com"
             "https://exampleXcom" eq_refl).
  - exact (@literal_pattern_matches_itself "https://example.com"
             "https://example.com" eq_refl).
Defined.

Lemma default_whitelist_admits_https_only_witness :
  prefix "https://" "https://example.com/index.html" = true
  \/ extractOrigin "https://example.com/index.html" = "about:blank".
Proof.
  apply (@default_whitelist_admits_https_only Sample.origin
           "https://example.com/index.html" eq_refl).
Defined.

Lemma error_left_only_by_finish_or_reload_witness :
  let s := final (Rev2.onLoadingError Sample.props
                    (Sample.errorEvent "https://example.com/" false)
                    (Sample.loadingState None)) in
  viewState s = ERROR
  /\ (isLoadingFinish Reload = true
      /\ viewState (final (perform2 (Sample.platform ios) Sample.props Reload s)) = IDLE
      \/ isReload Reload = true
         /\ viewState (final (perform2 (Sample.platform ios) Sample.props Reload s))
            = LOADING).
Proof.
  cbv zeta. split; [reflexivity|].
  apply (proj2 (@error_left_only_by_finish_or_reload Sample.json
                  (Sample.platform ios) Sample.props Reload
                  (final (Rev2.onLoadingError Sample.props
                            (Sample.errorEvent "https://example.com/" false)
                            (Sample.loadingState None)))
                  eq_refl)).
  cbn. discriminate.
Defined.

Lemma start_then_finish_is_idle_witness :
  viewState
    (final (Rev2.onLoadingFinish (Sample.platform android) Sample.props
              (Sample.navigation "https://example.com/" 2)
              (final (Rev2.onLoadingStart Sample.props
                        (Sample.navigation "https://example.com/" 1)
                        (Sample.loadingState None))))) = IDLE.
Proof.
  apply (proj2 (@start_then_finish_is_idle Sample.json (Sample.platform android)
                  Sample.props (Sample.navigation "https://example.com/" 1)
                  (Sample.navigation "https://example.com/" 2)
                  (Sample.loadingState None) eq_refl eq_refl)).
Defined.

Lemma interceptor_denial_is_final_witness :
  trace (createOnShouldStartLoadWithRequest (Sample.platform ios)
           defaultOriginWhitelist (Some (fun _ => true))
           (Sample.navigation "http://example.com/" 7) (Sample.loadingState None))
  = [LinkingCanOpenURL "http://example.com/";
     LoadRequest false "http://example.com/" 7].
Proof.
  exact (@interceptor_denial_is_final Sample.json (Sample.platform ios)
           defaultOriginWhitelist (fun _ => true)
           (Sample.navigation "http://example.com/" 7) (Sample.loadingState None)
           (Some false) eq_refl).
Defined.
